(** * GTM → Slack integration: version-check-and-notify workflow

    A shallow embedding of the Cloud Function [getGtmInfo] and its helpers,
    in the two variants the repository carries:

    - [IndexJs]  : [src/index.js] (state creation and comparison inline in
                   the loop body);
    - [Part000]  : [src/unnamed/part_000] (the same entry point refactored
                   into [addContainerToState] and
                   [checkPublishedVersionIdAgainstState]).

    JavaScript objects used as dictionaries are finite maps ([gmap]) keyed by
    strings; an absent property is [None].  The external collaborators
    (clock, Tag Manager API, Slack webhook, Cloud Storage, pretty-ms) are
    oracles collected in [Env]; every call is recorded in a trace. *)

From stdpp Require Import gmap strings list.
From Stdlib Require Import Ascii ZArith QArith.

Close Scope Q_scope.
Open Scope string_scope.
Open Scope list_scope.

(** ** Data model *)

(** [config.json], in the shape the README documents: [gcs] an object with
    two names, [slackOutput] an array of objects, [gtmContainers] an array
    of strings.  A property that the JSON document does not carry is [None].
    Objects and arrays are truthy in JavaScript, so a present section is
    truthy whatever it contains. *)
Record Gcs := {
  bucketName : option string;
  fileName : option string
}.

Record SlackOutput := {
  slackWebhookUrl : option string;
  gtmContainers : option (list string)
}.

Record Config := {
  gcs : option Gcs;
  verboseLogging : bool;
  slackOutput : option (list SlackOutput)
}.

(** The state file: account id → container id → record.  Account and
    container ids are taken to be own properties of the objects they index
    (no name of [Object.prototype] is used as an id). *)
Record ContainerRecord := {
  containerVersionId : option string;
  lastChecked : option Z
}.

Abbreviation GtmState := (gmap string (gmap string ContainerRecord)).

(** [res.data] of [tagmanager.accounts.containers.versions.live]. *)
Record Container := {
  publicId : string;
  containerName : string
}.

Record VersionData := {
  liveVersionId : string;
  container : Container;
  versionName : option string;
  tagManagerUrl : string
}.

(** The attachment handed to [IncomingWebhook.send]. *)
Record Attachment := {
  fallback : string;
  color : string;
  pretext : string;
  author_name : string;
  title : string;
  title_link : string;
  text : string;
  mrkdwn_in : list string;
  footer : string;
  ts : Q
}.

(** ** JavaScript value conventions *)

(** Truthiness of a string-valued property: absent and the empty string are
    falsy. *)
Definition truthyStr (o : option string) : bool :=
  match o with
  | Some s => negb (String.eqb s "")
  | None => false
  end.

(** Truthiness of an object- or array-valued property: falsy only when
    absent (the empty array is truthy). *)
Definition truthyObj {A} (o : option A) : bool :=
  match o with
  | Some _ => true
  | None => false
  end.

(** [obj.hasOwnProperty(name)]: the property is there, whatever its value. *)
Definition hasOwnProperty {A} (o : option A) : bool :=
  match o with
  | Some _ => true
  | None => false
  end.

(** A possibly absent string inside a template literal. *)
Definition render (o : option string) : string :=
  match o with
  | Some s => s
  | None => "undefined"
  end.

(** [s.split('_')]. *)
Fixpoint split (s : string) : list string :=
  match s with
  | EmptyString => [""]
  | String ch rest =>
      if Ascii.eqb ch "_"%char then "" :: split rest
      else match split rest with
           | piece :: pieces => String ch piece :: pieces
           | [] => [String ch ""]
           end
  end.

(** [const [accountId, containerId] = gtmContainer.split('_')].  Both names
    are used only as property keys and inside template literals, where a
    missing second piece reads as the string [undefined]. *)
Definition splitIds (gtmContainer : string) : string * string :=
  let pieces := split gtmContainer in
  (render (pieces !! 0%nat), render (pieces !! 1%nat)).

(** ** validateConfig *)

Record Validation := {
  error : bool;
  errorMessage : string
}.

(** The predicate of the filter in line 56:
    [s['slackWebhookUrl'] && s['gtmContainers']]. *)
Definition validItem (s : SlackOutput) : bool :=
  truthyStr (slackWebhookUrl s) && truthyObj (gtmContainers s).

(** Lines 49-61, one [let] for each [if (...) msg += ...]; a guard
    [config.gcs && ...] or [config.slackOutput && ...] is the [Some] branch. *)
Definition validateConfig (config : Config) : Validation :=
  let msg := "" in
  let msg :=
    if negb (hasOwnProperty (gcs config)) then msg +:+ "config_missing_gcs;"
    else msg in
  let msg :=
    match gcs config with
    | Some g =>
        if negb (hasOwnProperty (bucketName g))
        then msg +:+ "config_missing_gcs_bucketName;" else msg
    | None => msg
    end in
  let msg :=
    match gcs config with
    | Some g =>
        if negb (hasOwnProperty (fileName g))
        then msg +:+ "config_missing_gcs_fileName;" else msg
    | None => msg
    end in
  let msg :=
    if negb (hasOwnProperty (slackOutput config))
    then msg +:+ "config_missing_slackOutput;" else msg in
  let msg :=
    match slackOutput config with
    | Some items =>
        if (length items =? 0)%nat
        then msg +:+ "config_missing_slackOutput_items;" else msg
    | None => msg
    end in
  let msg :=
    match slackOutput config with
    | Some items =>
        if negb (length (List.filter validItem items) =? length items)%nat
        then msg +:+ "invalid_items_in_slackOutput;" else msg
    | None => msg
    end in
  {| error := negb (String.eqb msg ""); errorMessage := msg |}.

(** *** The six failure causes of the specification *)

Inductive Cause :=
| MissingGcs
| MissingBucketName
| MissingFileName
| MissingSlackOutput
| EmptySlackOutput
| InvalidItem.

Definition causes : list Cause :=
  [MissingGcs; MissingBucketName; MissingFileName;
   MissingSlackOutput; EmptySlackOutput; InvalidItem].

Definition code (c : Cause) : string :=
  match c with
  | MissingGcs => "config_missing_gcs;"
  | MissingBucketName => "config_missing_gcs_bucketName;"
  | MissingFileName => "config_missing_gcs_fileName;"
  | MissingSlackOutput => "config_missing_slackOutput;"
  | EmptySlackOutput => "config_missing_slackOutput_items;"
  | InvalidItem => "invalid_items_in_slackOutput;"
  end.

(** An entry lacks a webhook URL when the property is absent or empty, and
    lacks a container list when the property is absent. *)
Definition lacksField (s : SlackOutput) : Prop :=
  slackWebhookUrl s = None ∨ slackWebhookUrl s = Some "" ∨
  gtmContainers s = None.

(** The failure conditions, in the words of the specification. *)
Definition holds (config : Config) (c : Cause) : Prop :=
  match c with
  | MissingGcs => gcs config = None
  | MissingBucketName => ∃ g, gcs config = Some g ∧ bucketName g = None
  | MissingFileName => ∃ g, gcs config = Some g ∧ fileName g = None
  | MissingSlackOutput => slackOutput config = None
  | EmptySlackOutput => slackOutput config = Some []
  | InvalidItem =>
      ∃ items s, slackOutput config = Some items ∧ s ∈ items ∧ lacksField s
  end.

(** The same conditions as a decision procedure. *)
Definition holdsb (config : Config) (c : Cause) : bool :=
  match c with
  | MissingGcs => negb (hasOwnProperty (gcs config))
  | MissingBucketName =>
      match gcs config with
      | Some g => negb (hasOwnProperty (bucketName g))
      | None => false
      end
  | MissingFileName =>
      match gcs config with
      | Some g => negb (hasOwnProperty (fileName g))
      | None => false
      end
  | MissingSlackOutput => negb (hasOwnProperty (slackOutput config))
  | EmptySlackOutput =>
      match slackOutput config with
      | Some [] => true
      | _ => false
      end
  | InvalidItem =>
      match slackOutput config with
      | Some items => negb (forallb validItem items)
      | None => false
      end
  end.

(** The message assembled from a vector of six verdicts. *)
Definition messageOf (verdict : Cause → bool) : string :=
  String.concat "" (code <$> List.filter verdict causes).

(** ** Effects *)

(** What the function does to the outside world, in order. *)
Inductive Event :=
| ConsoleLog (msg : string)
| ConsoleError (msg : string)
| Download (bucket file : string)
| GetClient
| Live (parent : string)
| Send (webhookUrl : string) (attachment : Attachment)
| Save (bucket file : string) (content : GtmState).

Inductive Exn :=
| TypeError
| StorageError
| AuthError
| ApiError
| WebhookError.

(** An object in the bucket: either text that [JSON.parse] rejects, or the
    JSON rendering of a state mapping. *)
Inductive Blob :=
| Garbage
| Doc (state : GtmState).

(** The collaborators.  Calls of one kind are numbered from the start of
    the process, and an oracle answers the [k]-th call:
    - [clock k]: the value of the [k]-th [new Date().getTime()];
    - [live k parent]: [res.data] of the [k]-th [versions.live] call, [None]
      when the call rejects;
    - [deliver k url]: whether the [k]-th [send] resolves;
    - [prettyMs delta]: the text for [delta] milliseconds ([delta] is [None]
      for NaN), [None] when pretty-ms throws;
    - [downloadOk], [clientOk], [saveOk]: whether the download, the
      [auth.getClient()] and the save of this run go through. *)
Record Env := {
  clock : nat → Z;
  live : nat → string → option VersionData;
  deliver : nat → string → bool;
  prettyMs : option Z → option string;
  downloadOk : bool;
  clientOk : bool;
  saveOk : bool
}.

(** The process and the bucket: what has happened so far, how many calls
    of each kind were made, the module-level [webhooks] registry and the
    objects of Cloud Storage by bucket and file name. *)
Record World := {
  trace : list Event;
  clockReads : nat;
  liveCalls : nat;
  sendCalls : nat;
  webhooks : gset string;
  storage : gmap (string * string) Blob
}.

Inductive Outcome (A : Type) :=
| Done (a : A)
| Threw (e : Exn).
Arguments Done {A} a.
Arguments Threw {A} e.

(** An [async] function: it changes the world and returns or throws. *)
Definition Eff (A : Type) : Type := World → Outcome A * World.

Definition ret {A} (a : A) : Eff A := fun w => (Done a, w).

Definition throw {A} (e : Exn) : Eff A := fun w => (Threw e, w).

Definition bind {A B} (m : Eff A) (k : A → Eff B) : Eff B :=
  fun w =>
    match m w with
    | (Done a, w') => k a w'
    | (Threw e, w') => (Threw e, w')
    end.

Declare Scope eff_scope.
Delimit Scope eff_scope with eff.
Notation "x <- m ;; k" := (bind m (fun x => k))
  (at level 100, m at next level, right associativity) : eff_scope.
Notation "m ;; k" := (bind m (fun _ => k))
  (at level 100, right associativity) : eff_scope.
Open Scope eff_scope.

(** [for (const x of items) body], threading the state object. *)
Fixpoint forOf {A S} (body : A → S → Eff S) (items : list A) (s : S) : Eff S :=
  match items with
  | [] => ret s
  | x :: rest => s' <- body x s ;; forOf body rest s'
  end.

(** The world after the events [evs] have happened and the three call
    counters have moved on. *)
Definition advance (evs : list Event) (clocks lives sends : nat) (w : World) : World :=
  {| trace := trace w ++ evs;
     clockReads := clocks + clockReads w;
     liveCalls := lives + liveCalls w;
     sendCalls := sends + sendCalls w;
     webhooks := webhooks w;
     storage := storage w |}.

Definition emit (e : Event) : Eff unit := fun w => (Done tt, advance [e] 0 0 0 w).

Definition consoleLog (msg : string) : Eff unit := emit (ConsoleLog msg).

Definition consoleError (msg : string) : Eff unit := emit (ConsoleError msg).

(** [log]: only when [config.verboseLogging]. *)
Definition log (config : Config) (msg : string) : Eff unit :=
  if verboseLogging config then consoleLog msg else ret tt.

(** [new Date().getTime()]. *)
Definition getTime (env : Env) : Eff Z :=
  fun w => (Done (clock env (clockReads w)), advance [] 1 0 0 w).

(** [tagmanager.accounts.containers.versions.live({parent})], returning
    [res.data]. *)
Definition versionsLive (env : Env) (parent : string) : Eff VersionData :=
  fun w =>
    match live env (liveCalls w) parent with
    | Some data => (Done data, advance [Live parent] 0 1 0 w)
    | None => (Threw ApiError, advance [Live parent] 0 1 0 w)
    end.

(** [webhooks[webHookUrl] = new IncomingWebhook(webHookUrl)]; the
    constructor rejects an undefined URL. *)
Definition registerWebhook (webHookUrl : option string) : Eff unit :=
  fun w =>
    match webHookUrl with
    | Some url =>
        (Done tt,
         {| trace := trace w; clockReads := clockReads w;
            liveCalls := liveCalls w; sendCalls := sendCalls w;
            webhooks := {[url]} ∪ webhooks w; storage := storage w |})
    | None => (Threw WebhookError, w)
    end.

(** [webhooks[webhookUrl]]: reading a method off an unregistered entry is a
    TypeError. *)
Definition lookupWebhook (webhookUrl : option string) : Eff string :=
  fun w =>
    match webhookUrl with
    | Some url =>
        if decide (url ∈ webhooks w) then (Done url, w) else (Threw TypeError, w)
    | None => (Threw TypeError, w)
    end.

(** [IncomingWebhook.send]. *)
Definition webhookSend (env : Env) (url : string) (a : Attachment) : Eff unit :=
  fun w =>
    if deliver env (sendCalls w) url
    then (Done tt, advance [Send url a] 0 0 1 w)
    else (Threw WebhookError, advance [Send url a] 0 0 1 w).

(** [prettyMs(delta)]; [delta] is [None] for NaN.  pretty-ms rejects a
    number it cannot render with a TypeError. *)
Definition callPrettyMs (env : Env) (delta : option Z) : Eff string :=
  match prettyMs env delta with
  | Some s => ret s
  | None => throw TypeError
  end.

(** ** sendSlackMessage *)

(** [data.name || '(no name)']. *)
Definition nameOr (data : VersionData) : string :=
  if truthyStr (versionName data) then render (versionName data)
  else "(no name)".

(** The attachment literal; [body] is the [text] field, which the two
    variants word differently. *)
Definition attachmentOf (now : Z) (data : VersionData) (body : string) : Attachment :=
  {| fallback := "Container version " +:+ liveVersionId data +:+
                 " was recently published";
     color := "#36a64f";
     pretext := "A container version was recently published!";
     author_name := publicId (container data) +:+ ": " +:+
                    containerName (container data);
     title := liveVersionId data +:+ ": " +:+ nameOr data;
     title_link := tagManagerUrl data;
     text := body;
     mrkdwn_in := ["text"];
     footer := "by GTM Tools";
     ts := Qmake now 1000 |}.

(** [sendSlackMessage], with the closing of the text as a parameter:
    [" ago)"] in [index.js], [" ago)."] in [part_000]. *)
Definition sendSlackMessageWith (closing : string) (env : Env)
    (lastChecked : option Z) (data : VersionData) (webhookUrl : option string)
    : Eff unit :=
  now <- getTime env ;;
  let delta := (fun l => now - l)%Z <$> lastChecked in
  hook <- lookupWebhook webhookUrl ;;
  pretty <- callPrettyMs env delta ;;
  webhookSend env hook
    (attachmentOf now data
       ("New published version found since last check (" +:+ pretty +:+ closing)).

(** ** Reading and writing the state object *)

(** [gtmState[accountId][containerId]], the inner lookup possibly
    [undefined]. *)
Definition lookupContainer (gtmState : GtmState) (accountId containerId : string)
    : Eff (option ContainerRecord) :=
  match gtmState !! accountId with
  | Some account => ret (account !! containerId)
  | None => throw TypeError
  end.

(** [gtmState[accountId][containerId]] when a property of it is read or
    written next. *)
Definition getRecord (gtmState : GtmState) (accountId containerId : string)
    : Eff ContainerRecord :=
  o <- lookupContainer gtmState accountId containerId ;;
  match o with
  | Some r => ret r
  | None => throw TypeError
  end.

(** [gtmState[accountId][containerId] = r]. *)
Definition putRecord (gtmState : GtmState) (accountId containerId : string)
    (r : ContainerRecord) : Eff GtmState :=
  match gtmState !! accountId with
  | Some account => ret (<[accountId := <[containerId := r]> account]> gtmState)
  | None => throw TypeError
  end.

(** [gtmState[accountId][containerId]['containerVersionId'] = v]. *)
Definition setVersionId (gtmState : GtmState) (accountId containerId v : string)
    : Eff GtmState :=
  r <- getRecord gtmState accountId containerId ;;
  putRecord gtmState accountId containerId
    {| containerVersionId := Some v; lastChecked := lastChecked r |}.

(** [gtmState[accountId][containerId]['lastChecked'] = new Date().getTime()]. *)
Definition setLastChecked (env : Env) (gtmState : GtmState)
    (accountId containerId : string) : Eff GtmState :=
  r <- getRecord gtmState accountId containerId ;;
  now <- getTime env ;;
  putRecord gtmState accountId containerId
    {| containerVersionId := containerVersionId r; lastChecked := Some now |}.

(** [if (!gtmState[accountId]) gtmState[accountId] = {}]. *)
Definition ensureAccount (gtmState : GtmState) (accountId : string) : GtmState :=
  match gtmState !! accountId with
  | Some _ => gtmState
  | None => <[accountId := ∅]> gtmState
  end.

Definition parentOf (accountId containerId : string) : string :=
  "accounts/" +:+ accountId +:+ "/containers/" +:+ containerId.

Definition tag (accountId containerId : string) : string :=
  accountId +:+ "_" +:+ containerId.

(** ** Cloud Storage *)

(** [storage.bucket(bucketName).file(fileName)]: the client refuses a
    missing name. *)
Definition objectKey (bucketName fileName : option string) : option (string * string) :=
  match bucketName, fileName with
  | Some b, Some f => Some (b, f)
  | _, _ => None
  end.

(** [try { ... } catch(e) { ... }]. *)
Definition tryCatch {A} (block handler : Eff A) : Eff A :=
  fun w =>
    match block w with
    | (Done a, w') => (Done a, w')
    | (Threw _, w') => handler w'
    end.

(** [await storage.bucket(bucketName).file(fileName).download(...)] followed
    by [JSON.parse(await readFile(destination))]. *)
Definition downloadState (env : Env) (bucketName fileName : option string)
    : Eff GtmState :=
  fun w =>
    match objectKey bucketName fileName with
    | Some (b, f) =>
        let w' := advance [Download b f] 0 0 0 w in
        if downloadOk env then
          match storage w !! (b, f) with
          | Some (Doc state) => (Done state, w')
          | Some Garbage => (Threw StorageError, w')
          | None => (Threw StorageError, w')
          end
        else (Threw StorageError, w')
    | None => (Threw StorageError, w)
    end.

(** The block that initialises [gtmState]: whatever goes wrong inside the
    [try] leaves [gtmState = {}]. *)
Definition loadState (env : Env) (bucketName fileName : option string) : Eff GtmState :=
  consoleLog "Loading state from Cloud Storage." ;;
  tryCatch
    (gtmState <- downloadState env bucketName fileName ;;
     consoleLog "State file found and loaded successfully." ;;
     ret gtmState)
    (consoleLog "State file not found, creating a new one." ;;
     ret ∅).

(** [storage.bucket(bucketName).file(fileName).save(JSON.stringify(gtmState))]. *)
Definition saveState (env : Env) (bucketName fileName : option string)
    (gtmState : GtmState) : Eff unit :=
  consoleLog "Writing new state to Cloud Storage." ;;
  fun w =>
    match objectKey bucketName fileName with
    | Some (b, f) =>
        if saveOk env then
          (Done tt,
           {| trace := trace w ++ [Save b f gtmState];
              clockReads := clockReads w;
              liveCalls := liveCalls w; sendCalls := sendCalls w;
              webhooks := webhooks w;
              storage := <[(b, f) := Doc gtmState]> (storage w) |})
        else (Threw StorageError, advance [Save b f gtmState] 0 0 0 w)
    | None => (Threw StorageError, w)
    end.

(** [await auth.getClient()]. *)
Definition getClient (env : Env) : Eff unit :=
  emit GetClient ;;
  if clientOk env then ret tt else throw AuthError.

(** Reading a property that the loop is about to iterate or destructure. *)
Definition required {A} (o : option A) : Eff A :=
  match o with
  | Some a => ret a
  | None => throw TypeError
  end.

(** ** The entry point *)

(** Both files carry the same text for [getGtmInfo] outside the body of the
    inner loop ([index.js] lines 96-138 and 169-176, [part_000] lines 149-191
    and 203-210); [containerBody] is that body, run once the identifier has
    been split. *)
Definition ContainerBody : Type :=
  Env → Config → option string → string → string → GtmState → Eff GtmState.

Definition forContainer (body : ContainerBody) (env : Env) (config : Config)
    (webHookUrl : option string) (gtmContainer : string) (gtmState : GtmState)
    : Eff GtmState :=
  let '(accountId, containerId) := splitIds gtmContainer in
  log config (tag accountId containerId +:+ ": Checking version state.") ;;
  body env config webHookUrl accountId containerId gtmState.

Definition forSlack (body : ContainerBody) (env : Env) (config : Config)
    (slack : SlackOutput) (gtmState : GtmState) : Eff GtmState :=
  let webHookUrl := slackWebhookUrl slack in
  log config ("Starting operation for webhook URL " +:+ render webHookUrl) ;;
  registerWebhook webHookUrl ;;
  containers <- required (gtmContainers slack) ;;
  forOf (forContainer body env config webHookUrl) containers gtmState.

(** From [auth.getClient()] to the final save, on the loaded state. *)
Definition checkContainers (body : ContainerBody) (env : Env) (config : Config)
    (g : Gcs) (gtmState : GtmState) : Eff unit :=
  getClient env ;;
  items <- required (slackOutput config) ;;
  gtmState <- forOf (forSlack body env config) items gtmState ;;
  saveState env (bucketName g) (fileName g) gtmState.

(** Everything after the validation gate. *)
Definition checkAll (body : ContainerBody) (env : Env) (config : Config) : Eff unit :=
  consoleLog "Validation successful." ;;
  g <- required (gcs config) ;;
  gtmState <- loadState env (bucketName g) (fileName g) ;;
  checkContainers body env config g gtmState.

Definition getGtmInfoWith (body : ContainerBody) (env : Env) (config : Config) : Eff unit :=
  consoleLog "Validating config.json" ;;
  let validated := validateConfig config in
  if error validated then
    consoleError ("Invalid config.json: " +:+ errorMessage validated)
  else checkAll body env config.

Definition missingMsg (accountId containerId : string) : string :=
  tag accountId containerId +:+
  ": Previous entry missing, setting the current version as the new entry.".

Definition changedMsg (accountId containerId : string) : string :=
  tag accountId containerId +:+
  ": New version published since previous entry, notifying Slack.".

Definition sameMsg (accountId containerId : string) : string :=
  tag accountId containerId +:+
  ": Published version same as previous entry, or new entry altogether.".

(** ** [src/index.js] *)
Module IndexJs.

Definition sendSlackMessage : Env → option Z → VersionData → option string → Eff unit :=
  sendSlackMessageWith " ago)".

(** Lines 140-166: the body of the inner loop. *)
Definition containerBody : ContainerBody :=
  fun env config webHookUrl accountId containerId gtmState =>
    res <- versionsLive env (parentOf accountId containerId) ;;
    let gtmState := ensureAccount gtmState accountId in
    entry <- lookupContainer gtmState accountId containerId ;;
    gtmState <-
      match entry with
      | None =>
          log config (missingMsg accountId containerId) ;;
          putRecord gtmState accountId containerId
            {| containerVersionId := Some (liveVersionId res);
               lastChecked := None |}
      | Some _ => ret gtmState
      end ;;
    r <- getRecord gtmState accountId containerId ;;
    gtmState <-
      (if decide (containerVersionId r ≠ Some (liveVersionId res)) then
         log config (changedMsg accountId containerId) ;;
         sendSlackMessage env (lastChecked r) res webHookUrl ;;
         setVersionId gtmState accountId containerId (liveVersionId res)
       else
         log config (sameMsg accountId containerId) ;;
         ret gtmState) ;;
    setLastChecked env gtmState accountId containerId.

Definition getGtmInfo : Env → Config → Eff unit := getGtmInfoWith containerBody.

End IndexJs.

(** ** [src/unnamed/part_000] *)
Module Part000.

Definition sendSlackMessage : Env → option Z → VersionData → option string → Eff unit :=
  sendSlackMessageWith " ago).".

(** [gtmState[accountId][containerId] || {}]. *)
Definition orEmpty (entry : option ContainerRecord) : ContainerRecord :=
  match entry with
  | Some r => r
  | None => {| containerVersionId := None; lastChecked := None |}
  end.

Definition addContainerToState (gtmState : GtmState) (accountId containerId : string)
    : Eff GtmState :=
  let gtmState := ensureAccount gtmState accountId in
  entry <- lookupContainer gtmState accountId containerId ;;
  putRecord gtmState accountId containerId (orEmpty entry).

Definition checkPublishedVersionIdAgainstState (env : Env) (config : Config)
    (webHookUrl : option string) (gtmState : GtmState)
    (accountId containerId : string) : Eff GtmState :=
  res <- versionsLive env (parentOf accountId containerId) ;;
  r <- getRecord gtmState accountId containerId ;;
  (if negb (truthyStr (containerVersionId r)) then
     log config (missingMsg accountId containerId)
   else if decide (containerVersionId r ≠ Some (liveVersionId res)) then
     log config (changedMsg accountId containerId) ;;
     sendSlackMessage env (lastChecked r) res webHookUrl
   else
     log config (sameMsg accountId containerId)) ;;
  setVersionId gtmState accountId containerId (liveVersionId res).

(** Lines 193-200: the body of the inner loop. *)
Definition containerBody : ContainerBody :=
  fun env config webHookUrl accountId containerId gtmState =>
    gtmState <- addContainerToState gtmState accountId containerId ;;
    gtmState <- checkPublishedVersionIdAgainstState env config webHookUrl
                  gtmState accountId containerId ;;
    setLastChecked env gtmState accountId containerId.

Definition getGtmInfo : Env → Config → Eff unit := getGtmInfoWith containerBody.

End Part000.

(** ** Observing a trace *)

(** The notifications sent: destination and message, in order. *)
Definition sendsOf (t : list Event) : list (string * Attachment) :=
  omap (fun e => match e with Send url a => Some (url, a) | _ => None end) t.

(** The version fetches: the [parent] of each call, in order. *)
Definition livesOf (t : list Event) : list string :=
  omap (fun e => match e with Live parent => Some parent | _ => None end) t.

(** The accesses to the bucket, reads and writes alike. *)
Definition storeOf (t : list Event) : list Event :=
  List.filter
    (fun e => match e with Download _ _ | Save _ _ _ => true | _ => false end) t.

(** [gtmState[accountId][containerId]] as a total lookup. *)
Definition recordAt (gtmState : GtmState) (accountId containerId : string)
    : option ContainerRecord :=
  gtmState !! accountId ≫= (fun account => account !! containerId).


(** The writes to the bucket. *)
Definition savesOf (t : list Event) : list Event :=
  List.filter (fun e => match e with Save _ _ _ => true | _ => false end) t.

(** ** Vocabulary of the statements *)

Definition isDone {A} (o : Outcome A) : Prop := ∃ a, o = Done a.

Definition isThrew {A} (o : Outcome A) : Prop := ∃ e, o = Threw e.

(** The event is a remote call that the collaborator answered with an
    error, [lives] and [sends] being the numbers of the calls. *)
Definition failedAt (env : Env) (lives sends : nat) (e : Event) : Prop :=
  match e with
  | Live parent => live env lives parent = None
  | Send url _ => deliver env sends url = false
  | _ => False
  end.

(** Nothing happens after a failed remote call, and the computation throws. *)
Definition failureIsFinal (env : Env) (lives sends : nat) (evs : list Event)
    {A} (o : Outcome A) : Prop :=
  ∀ (pre : list Event) ev post, evs = pre ++ ev :: post →
    failedAt env (lives + length (livesOf pre)) (sends + length (sendsOf pre)) ev →
    post = [] ∧ isThrew o.

(** A computation that leaves the bucket alone, fetches the versions of
    [planned] in that order and stops at the first remote call that fails. *)
Definition tracked (env : Env) (planned : list string) {A} (m : Eff A) : Prop :=
  ∀ w, ∃ evs,
    trace (m w).2 = trace w ++ evs ∧
    liveCalls (m w).2 = liveCalls w + length (livesOf evs) ∧
    sendCalls (m w).2 = sendCalls w + length (sendsOf evs) ∧
    storage (m w).2 = storage w ∧
    savesOf evs = [] ∧
    livesOf evs `prefix_of` planned ∧
    (isDone (m w).1 → livesOf evs = planned) ∧
    failureIsFinal env (liveCalls w) (sendCalls w) evs (m w).1.

(** The same for a computation that may end with the write of the state. *)
Definition aborting (env : Env) (planned : list string) {A} (m : Eff A) : Prop :=
  ∀ w, ∃ evs,
    trace (m w).2 = trace w ++ evs ∧
    livesOf evs `prefix_of` planned ∧
    (isDone (m w).1 → livesOf evs = planned) ∧
    (isThrew (m w).1 → storage (m w).2 = storage w) ∧
    ∀ (pre : list Event) ev post, evs = pre ++ ev :: post →
      failedAt env (liveCalls w + length (livesOf pre))
        (sendCalls w + length (sendsOf pre)) ev →
      post = [] ∧ isThrew (m w).1 ∧ savesOf evs = [] ∧
      storage (m w).2 = storage w.

(** The [parent] that the loop requests for an entry of [gtmContainers]. *)
Definition parentOfContainer (gtmContainer : string) : string :=
  parentOf (splitIds gtmContainer).1 (splitIds gtmContainer).2.

Definition plannedFor (slack : SlackOutput) : list string :=
  parentOfContainer <$> default [] (gtmContainers slack).

(** The fetches a run is to make, in the configured order. *)
Definition planned (config : Config) : list string :=
  concat (plannedFor <$> default [] (slackOutput config)).

(** [gtmState[accountId][containerId] = r] on a state whose account entry
    exists or has just been created. *)
Definition setRecord (gtmState : GtmState) (accountId containerId : string)
    (r : ContainerRecord) : GtmState :=
  <[accountId := <[containerId := r]> (default ∅ (gtmState !! accountId))]> gtmState.

(** What [log] prints for a list of messages. *)
Definition logsOf (config : Config) (msgs : list string) : list Event :=
  if verboseLogging config then ConsoleLog <$> msgs else [].

(** What the argument about the loops needs to know about a loop body. *)
Definition trackedBody (env : Env) (body : ContainerBody) : Prop :=
  ∀ config url a c s, tracked env [parentOf a c] (body env config url a c s).

(** The record as the loop body last leaves it. *)
Definition checkedRecord (data : VersionData) (now : Z) : ContainerRecord :=
  {| containerVersionId := Some (liveVersionId data); lastChecked := Some now |}.

(** Whether the body notifies, as each file decides it from the entry found
    in the state. *)
Definition notifiesIndexJs (entry : option ContainerRecord) (data : VersionData) : bool :=
  match entry with
  | Some r => bool_decide (containerVersionId r ≠ Some (liveVersionId data))
  | None => false
  end.

Definition notifiesPart000 (entry : option ContainerRecord) (data : VersionData) : bool :=
  match entry with
  | Some r =>
      truthyStr (containerVersionId r) &&
      bool_decide (containerVersionId r ≠ Some (liveVersionId data))
  | None => false
  end.

(** What each file logs when it does not notify. *)
Definition quietLogsIndexJs (entry : option ContainerRecord) (a c : string) : list string :=
  match entry with
  | Some _ => [sameMsg a c]
  | None => [missingMsg a c; sameMsg a c]
  end.

Definition quietLogsPart000 (entry : option ContainerRecord) (a c : string) : list string :=
  if truthyStr (entry ≫= containerVersionId) then [sameMsg a c] else [missingMsg a c].

(** The end of a notifying pass: once [sendSlackMessage] has returned, the
    version id is stored and the clock is read for [lastChecked]. *)
Definition afterSend (env : Env) (data : VersionData) (s : GtmState) (a c : string)
    (sent : Outcome unit * World) : Outcome GtmState * World :=
  match sent with
  | (Done _, w) =>
      (Done (setRecord s a c (checkedRecord data (clock env (clockReads w)))),
       advance [] 1 0 0 w)
  | (Threw e, w) => (Threw e, w)
  end.

(** The text of the notification up to its closing. *)
Definition textOf (pretty closing : string) : string :=
  "New published version found since last check (" +:+ pretty +:+ closing.

(** A statement about the loop body of both files. *)
Definition inBothBodies (P : ContainerBody → Prop) : Prop :=
  P IndexJs.containerBody ∧ P Part000.containerBody.

(** A statement about the entry point of both files. *)
Definition inBothFiles (P : (Env → Config → Eff unit) → Prop) : Prop :=
  P IndexJs.getGtmInfo ∧ P Part000.getGtmInfo.

(** A pass over one container that returns without notifying and leaves the
    fetched version id and the time of the pass in the record. *)
Definition silentPass (env : Env) (config : Config) (url : option string)
    (a c : string) (s : GtmState) (w : World) (data : VersionData)
    (body : ContainerBody) : Prop :=
  ∃ s' w' evs,
    body env config url a c s w = (Done s', w') ∧
    trace w' = trace w ++ evs ∧
    sendsOf evs = [] ∧
    recordAt s' a c = Some (checkedRecord data (clock env (clockReads w))).

(** A pass over one container that sends exactly one notification, about
    the fetched version, and stores its id. *)
Definition notifyingPass (env : Env) (config : Config) (url a c : string)
    (s : GtmState) (w : World) (data : VersionData) (body : ContainerBody) : Prop :=
  ∃ s' w' evs message r',
    body env config (Some url) a c s w = (Done s', w') ∧
    trace w' = trace w ++ evs ∧
    sendsOf evs = [(url, message)] ∧
    fallback message =
      "Container version " +:+ liveVersionId data +:+ " was recently published" ∧
    title message = liveVersionId data +:+ ": " +:+ nameOr data ∧
    title_link message = tagManagerUrl data ∧
    recordAt s' a c = Some r' ∧
    containerVersionId r' = Some (liveVersionId data).

(** ** Sample inputs *)

Definition sampleData (version : string) : VersionData :=
  {| liveVersionId := version;
     container := {| publicId := "GTM-ABC123"; containerName := "Web" |};
     versionName := None;
     tagManagerUrl := "https://tagmanager.google.com/#/versions/" +:+ version |}.

(** Collaborators that all answer: the remote reports [version] for every
    container, the clock ticks once a second. *)
Definition sampleEnv (version : string) : Env :=
  {| clock := fun k => (1600000000000 + 1000 * Z.of_nat k)%Z;
     live := fun _ _ => Some (sampleData version);
     deliver := fun _ _ => true;
     prettyMs := fun delta =>
       match delta with Some _ => Some "1m" | None => None end;
     downloadOk := true;
     clientOk := true;
     saveOk := true |}.

Definition sampleUrl : string := "https://hooks.slack.com/services/T0/B0/x".

Definition sampleConfig : Config :=
  {| gcs := Some {| bucketName := Some "bucket"; fileName := Some "state.json" |};
     verboseLogging := true;
     slackOutput :=
       Some [{| slackWebhookUrl := Some sampleUrl;
                gtmContainers := Some ["1_2"] |}] |}.

(** One record for container [1_2]. *)
Definition sampleState (r : ContainerRecord) : GtmState := {[ "1" := {[ "2" := r ]} ]}.

Definition emptyWorld : World :=
  {| trace := []; clockReads := 0; liveCalls := 0; sendCalls := 0;
     webhooks := ∅; storage := ∅ |}.

(** A process whose webhook registry already holds [sampleUrl]. *)
Definition hookedWorld : World :=
  {| trace := []; clockReads := 0; liveCalls := 0; sendCalls := 0;
     webhooks := {[sampleUrl]}; storage := ∅ |}.

(** A bucket that holds [blob] under the name of [sampleConfig]. *)
Definition worldWith (blob : Blob) : World :=
  {| trace := []; clockReads := 0; liveCalls := 0; sendCalls := 0;
     webhooks := ∅; storage := {[ ("bucket", "state.json") := blob ]} |}.

(** ** The two files *)

Inductive File :=
| IndexJsFile
| Part000File.

Definition bodyOf (f : File) : ContainerBody :=
  match f with
  | IndexJsFile => IndexJs.containerBody
  | Part000File => Part000.containerBody
  end.

(** What each file takes for a container it has not seen before:
    [index.js] an entry that is missing ([!gtmState[accountId][containerId]]),
    [part_000] an entry whose [containerVersionId] is falsy, which a missing
    entry is once [addContainerToState] has put [{}] in its place. *)
Definition firstObservation (f : File) (entry : option ContainerRecord) : Prop :=
  match f with
  | IndexJsFile => entry = None
  | Part000File => truthyStr (entry ≫= containerVersionId) = false
  end.

(** [sampleConfig] with the container list of its only entry emptied. *)
Definition emptyListConfig : Config :=
  {| gcs := gcs sampleConfig;
     verboseLogging := true;
     slackOutput :=
       Some [{| slackWebhookUrl := Some sampleUrl; gtmContainers := Some [] |}] |}.

(** [sampleConfig] with the container list of its only entry left out. *)
Definition noListConfig : Config :=
  {| gcs := gcs sampleConfig;
     verboseLogging := true;
     slackOutput :=
       Some [{| slackWebhookUrl := Some sampleUrl; gtmContainers := None |}] |}.

(** What a run prints when the configuration is refused, and nothing else. *)
Definition refusal (config : Config) : list Event :=
  [ConsoleLog "Validating config.json";
   ConsoleError ("Invalid config.json: " +:+ errorMessage (validateConfig config))].

(** A run that stops at the validation gate. *)
Definition refused (env : Env) (config : Config) (w : World)
    (run : Env → Config → Eff unit) : Prop :=
  ∃ w',
    run env config w = (Done tt, w') ∧
    trace w' = trace w ++ refusal config ∧
    storeOf (refusal config) = [] ∧
    livesOf (refusal config) = [] ∧
    sendsOf (refusal config) = [] ∧
    storage w' = storage w.

(** A run that fetches the configured containers in their order and stops
    for good at the first fetch or notification that fails: nothing follows
    the failed call, the run throws, the state is not written and the bucket
    is as before. *)
Definition inOrderUntilFailure (env : Env) (config : Config) (w : World)
    (run : Env → Config → Eff unit) : Prop :=
  ∃ evs,
    trace (run env config w).2 = trace w ++ evs ∧
    livesOf evs `prefix_of` planned config ∧
    (isDone (run env config w).1 → error (validateConfig config) = false →
     livesOf evs = planned config) ∧
    (isThrew (run env config w).1 → storage (run env config w).2 = storage w) ∧
    ∀ (pre : list Event) ev post, evs = pre ++ ev :: post →
      failedAt env (liveCalls w + length (livesOf pre))
        (sendCalls w + length (sendsOf pre)) ev →
      post = [] ∧ isThrew (run env config w).1 ∧ savesOf evs = [] ∧
      storage (run env config w).2 = storage w.

Definition runOf (f : File) : Env → Config → Eff unit :=
  match f with
  | IndexJsFile => IndexJs.getGtmInfo
  | Part000File => Part000.getGtmInfo
  end.

(** The entries of every [gtmContainers] list of the configuration. *)
Definition allContainers (config : Config) : list string :=
  concat ((fun slack => default [] (gtmContainers slack)) <$>
          default [] (slackOutput config)).

(** The remote does not change: whenever it answers for [parent], the
    version id is [vid parent]. *)
Definition stableRemote (vid : string → string) (env : Env) : Prop :=
  ∀ k parent d, live env k parent = Some d → liveVersionId d = vid parent.

(** The state knows the live version of the container. *)
Definition known (vid : string → string) (gtmContainer : string) (s : GtmState) : Prop :=
  ∃ r, recordAt s (splitIds gtmContainer).1 (splitIds gtmContainer).2 = Some r ∧
       containerVersionId r = Some (vid (parentOfContainer gtmContainer)).

(** The state does not contradict the live version of the container. *)
Definition consistent (vid : string → string) (gtmContainer : string) (s : GtmState)
    : Prop :=
  ∀ r, recordAt s (splitIds gtmContainer).1 (splitIds gtmContainer).2 = Some r →
       containerVersionId r = Some (vid (parentOfContainer gtmContainer)).

(** The state contradicts the remote on no configured container. *)
Definition agrees (vid : string → string) (config : Config) (s : GtmState) : Prop :=
  ∀ g, g ∈ allContainers config → consistent vid g s.



(** ** Comparing the two files *)

(** The same notification with the full stop that [part_000] puts at the
    end of the text. *)
Definition withPeriod (n : string * Attachment) : string * Attachment :=
  (n.1,
   {| fallback := fallback n.2; color := color n.2; pretext := pretext n.2;
      author_name := author_name n.2; title := title n.2;
      title_link := title_link n.2; text := text n.2 +:+ ".";
      mrkdwn_in := mrkdwn_in n.2; footer := footer n.2; ts := ts n.2 |}).

(** Every record of the state carries a non-empty version id. *)
Definition wellFormedState (s : GtmState) : Prop :=
  ∀ a c r, recordAt s a c = Some r → truthyStr (containerVersionId r) = true.

(** Every document of the bucket is a well-formed state. *)
Definition wellFormedStore (w : World) : Prop :=
  ∀ k s, storage w !! k = Some (Doc s) → wellFormedState s.

(** The remote never reports an empty version id. *)
Definition wellFormedRemote (env : Env) : Prop :=
  ∀ k parent d, live env k parent = Some d → liveVersionId d ≠ "".

(** Two worlds reached from a common trace [t0], the first by [index.js] and
    the second by [part_000]: same counters, registry and bucket, same
    fetches, and the same notifications up to the full stop. *)
Definition related (t0 : list Event) (wA wB : World) : Prop :=
  clockReads wA = clockReads wB ∧
  liveCalls wA = liveCalls wB ∧
  sendCalls wA = sendCalls wB ∧
  webhooks wA = webhooks wB ∧
  storage wA = storage wB ∧
  ∃ evsA evsB,
    trace wA = t0 ++ evsA ∧
    trace wB = t0 ++ evsB ∧
    livesOf evsA = livesOf evsB ∧
    savesOf evsA = savesOf evsB ∧
    sendsOf evsB = withPeriod <$> sendsOf evsA.

(** Two results that agree: same outcome, related worlds, and a well-formed
    state when they return one. *)
Definition agreeing {A} (t0 : list Event) (I : A → Prop)
    (rA rB : Outcome A * World) : Prop :=
  rA.1 = rB.1 ∧ related t0 rA.2 rB.2 ∧ ∀ a, rA.1 = Done a → I a.

(** What each file takes for a container it has polled before, given the
    stored version id: [index.js] any entry, [part_000] a truthy id. *)
Definition polledBefore (f : File) (stored : string) : Prop :=
  match f with
  | IndexJsFile => True
  | Part000File => stored ≠ ""
  end.

(** Collaborators whose remote answers the first fetch only. *)
Definition failingEnv : Env :=
  {| clock := clock (sampleEnv "6");
     live := fun k _ => if (k =? 0)%nat then Some (sampleData "6") else None;
     deliver := fun _ _ => true;
     prettyMs := prettyMs (sampleEnv "6");
     downloadOk := true;
     clientOk := true;
     saveOk := true |}.

(** [sampleConfig] with a second container under the same webhook. *)
Definition twoContainers : Config :=
  {| gcs := gcs sampleConfig;
     verboseLogging := false;
     slackOutput :=
       Some [{| slackWebhookUrl := Some sampleUrl;
                gtmContainers := Some ["1_2"; "3_4"] |}] |}.


(** ** Vocabulary of the further properties *)

(** The identifier has no separator in it. *)
Fixpoint hasUnderscore (s : string) : bool :=
  match s with
  | EmptyString => false
  | String ch rest => Ascii.eqb ch "_"%char || hasUnderscore rest
  end.

Definition noUnderscore (s : string) : Prop := hasUnderscore s = false.

(** How each file closes the text of the notification. *)
Definition closingOf (f : File) : string :=
  match f with
  | IndexJsFile => " ago)"
  | Part000File => " ago)."
  end.

Definition sendSlackMessageOf (f : File)
    : Env → option Z → VersionData → option string → Eff unit :=
  match f with
  | IndexJsFile => IndexJs.sendSlackMessage
  | Part000File => Part000.sendSlackMessage
  end.

(** A configuration with everything the run reads: both names of the
    state object, at least one notification target, and for every target a
    non-empty webhook URL and a container list. *)
Definition complete (config : Config) : Prop :=
  ∃ g b n items,
    gcs config = Some g ∧ bucketName g = Some b ∧ fileName g = Some n ∧
    slackOutput config = Some items ∧ items ≠ [] ∧
    ∀ entry, entry ∈ items →
      ∃ url containers,
        slackWebhookUrl entry = Some url ∧ url ≠ "" ∧
        gtmContainers entry = Some containers.

(** Whether the loop body of the file notifies, and what it logs when it
    does not. *)
Definition notifiesOf (f : File) : option ContainerRecord → VersionData → bool :=
  match f with
  | IndexJsFile => notifiesIndexJs
  | Part000File => notifiesPart000
  end.

Definition quietLogsOf (f : File) : option ContainerRecord → string → string → list string :=
  match f with
  | IndexJsFile => quietLogsIndexJs
  | Part000File => quietLogsPart000
  end.

(** The process once [webhooks[url]] has been assigned. *)
Definition withWebhook (url : string) (w : World) : World :=
  {| trace := trace w; clockReads := clockReads w;
     liveCalls := liveCalls w; sendCalls := sendCalls w;
     webhooks := {[url]} ∪ webhooks w; storage := storage w |}.

(** The state that [loadState] hands to the loops: the document of the
    bucket, or [{}] when the download or the parse fails. *)
Definition loadedState (env : Env) (bucket file : string) (w : World) : GtmState :=
  if downloadOk env then
    match storage w !! (bucket, file) with
    | Some (Doc state) => state
    | _ => ∅
    end
  else ∅.

(** Whether it is the document of the bucket. *)
Definition loads (env : Env) (bucket file : string) (w : World) : bool :=
  downloadOk env &&
  match storage w !! (bucket, file) with
  | Some (Doc _) => true
  | _ => false
  end.

(** What a run prints and does before it asks for credentials. *)
Definition preamble (env : Env) (bucket file : string) (w : World) : list Event :=
  [ConsoleLog "Validating config.json";
   ConsoleLog "Validation successful.";
   ConsoleLog "Loading state from Cloud Storage.";
   Download bucket file;
   ConsoleLog (if loads env bucket file w
               then "State file found and loaded successfully."
               else "State file not found, creating a new one.");
   GetClient].

(** The container has been checked between the worlds [w] and [w']: its
    record holds the version id that one of the fetches made in between
    returned for it, and as [lastChecked] one of the clock readings taken in
    between. *)
Definition checked (env : Env) (w w' : World) (s : GtmState)
    (gtmContainer : string) : Prop :=
  ∃ k j d,
    (liveCalls w ≤ k < liveCalls w')%nat ∧
    (clockReads w ≤ j < clockReads w')%nat ∧
    live env k (parentOfContainer gtmContainer) = Some d ∧
    recordAt s (splitIds gtmContainer).1 (splitIds gtmContainer).2 =
      Some (checkedRecord d (clock env j)).


(** Every record of the state carries the time of its last check, as every
    record that a pass of the loop has written does. *)
Definition timed (s : GtmState) : Prop :=
  ∀ a c r, recordAt s a c = Some r → is_Some (lastChecked r).

(** Every document of the bucket is such a state. *)
Definition timedStore (w : World) : Prop :=
  ∀ k s, storage w !! k = Some (Doc s) → timed s.



(** The configuration with [verboseLogging] set to [v]. *)
Definition withVerbose (v : bool) (config : Config) : Config :=
  {| gcs := gcs config; verboseLogging := v; slackOutput := slackOutput config |}.

(** Everything that happened apart from the lines of [console.log]. *)
Definition effectsOf (t : list Event) : list Event :=
  List.filter (fun e => match e with ConsoleLog _ => false | _ => true end) t.

(** Two processes that differ in what they printed with [console.log]
    only. *)
Definition sameEffects (wA wB : World) : Prop :=
  clockReads wA = clockReads wB ∧
  liveCalls wA = liveCalls wB ∧
  sendCalls wA = sendCalls wB ∧
  webhooks wA = webhooks wB ∧
  storage wA = storage wB ∧
  effectsOf (trace wA) = effectsOf (trace wB).

Definition alike {A} (rA rB : Outcome A * World) : Prop :=
  rA.1 = rB.1 ∧ sameEffects rA.2 rB.2.

(** At every point of the trace, no more notifications have been sent than
    versions fetched. *)
Definition fetchFirst (evs : list Event) : Prop :=
  ∀ pre, pre `prefix_of` evs → (length (sendsOf pre) ≤ length (livesOf pre))%nat.

(** A computation whose notifications each follow a fetch of their own. *)
Definition paced {A} (m : Eff A) : Prop :=
  ∀ w, ∃ evs, trace (m w).2 = trace w ++ evs ∧ fetchFirst evs.
(** * Validation *)

Lemma filter_length_forallb {A} (f : A → bool) (l : list A) :
  (length (List.filter f l) =? length l)%nat = forallb f l.
Proof.
  induction l as [|a l IH]; [done|].
  simpl. destruct (f a); simpl; [done|].
  pose proof (List.filter_length_le f l).
  apply Nat.eqb_neq. lia.
Qed.

Lemma validItem_false (s : SlackOutput) : validItem s = false ↔ lacksField s.
Proof.
  unfold validItem, lacksField.
  destruct s as [[u|] [cs|]]; simpl;
    try (destruct (String.eqb_spec u ""); subst; simpl);
    split; intros H; try done; auto;
    destruct H as [H|[H|H]]; congruence.
Qed.

Lemma forallb_validItem_false (items : list SlackOutput) :
  forallb validItem items = false ↔ ∃ s, s ∈ items ∧ lacksField s.
Proof.
  induction items as [|s items IH]; simpl.
  - split; [done|]. intros (s & Hs & _). by apply elem_of_nil in Hs.
  - rewrite andb_false_iff, IH, validItem_false. split.
    + intros [H|(s' & Hin & H)]; [exists s|exists s']; split; auto; constructor; done.
    + intros (s' & Hin & H). apply elem_of_cons in Hin as [->|Hin]; [by left|].
      right. by exists s'.
Qed.

Lemma holdsb_spec (config : Config) (c : Cause) :
  holdsb config c = true ↔ holds config c.
Proof.
  destruct config as [g v so], c; simpl.
  - by destruct g.
  - destruct g as [[[b|] f]|]; simpl; split; try done.
    + intros (g & [= <-] & [=]).
    + intros _. eexists. split; done.
    + intros (g & [=] & _).
  - destruct g as [[b [f|]]|]; simpl; split; try done.
    + intros (g & [= <-] & [=]).
    + intros _. eexists. split; done.
    + intros (g & [=] & _).
  - by destruct so.
  - destruct so as [[|? ?]|]; split; done.
  - destruct so as [items|].
    + rewrite negb_true_iff, forallb_validItem_false. split.
      * intros (s & ? & ?). by exists items, s.
      * intros (items' & s & [= <-] & ? & ?). by exists s.
    + split; [done|]. intros (? & ? & [=] & _).
Qed.

(** The message is the concatenation of the codes of the causes that hold,
    in the order of the checks. *)
Lemma validateConfig_message (config : Config) :
  errorMessage (validateConfig config) = messageOf (holdsb config).
Proof.
  unfold validateConfig, messageOf, causes. simpl.
  destruct config as [[[b f]|] v [items|]]; simpl;
    try rewrite filter_length_forallb;
    try (destruct items as [|s items]; simpl);
    repeat match goal with |- context [hasOwnProperty ?o] => destruct o; simpl end;
    try (destruct (validItem s && forallb validItem items); simpl);
    reflexivity.
Qed.

Lemma validateConfig_error (config : Config) :
  error (validateConfig config) =
  negb (String.eqb (errorMessage (validateConfig config)) "").
Proof. reflexivity. Qed.

Ltac verdicts v v1 v2 v3 v4 v5 v6 :=
  destruct (v MissingGcs) eqn:v1, (v MissingBucketName) eqn:v2,
    (v MissingFileName) eqn:v3, (v MissingSlackOutput) eqn:v4,
    (v EmptySlackOutput) eqn:v5, (v InvalidItem) eqn:v6.

Lemma messageOf_empty (v : Cause → bool) :
  String.eqb (messageOf v) "" = true ↔ ∀ c, v c = false.
Proof.
  unfold messageOf, causes. simpl. split.
  - intros H c. verdicts v E1 E2 E3 E4 E5 E6;
      simpl in H; try discriminate H; by destruct c.
  - intros H. by rewrite !H.
Qed.

(** Two different sets of causes never produce the same message. *)
Lemma messageOf_inj (v v' : Cause → bool) :
  messageOf v = messageOf v' → ∀ c, v c = v' c.
Proof.
  intros H c. apply String.eqb_eq in H. revert H.
  unfold messageOf, causes. simpl.
  verdicts v E1 E2 E3 E4 E5 E6; verdicts v' F1 F2 F3 F4 F5 F6;
    vm_compute; intros H; try discriminate H; destruct c; congruence.
Qed.

Lemma validateConfig_error_true (config : Config) :
  error (validateConfig config) = true ↔ ∃ c, holds config c.
Proof.
  rewrite validateConfig_error, validateConfig_message, negb_true_iff.
  split.
  - intros H.
    assert (∃ c, holdsb config c = true) as [c Hc]; [|exists c; by apply holdsb_spec].
    verdicts (holdsb config) E1 E2 E3 E4 E5 E6; eauto.
    assert (String.eqb (messageOf (holdsb config)) "" = true) as E; [|congruence].
    apply messageOf_empty. by intros [].
  - intros [c Hc%holdsb_spec]. apply not_true_iff_false. intros E.
    rewrite messageOf_empty in E. specialize (E c). congruence.
Qed.

(** * Remote calls: order and abort on failure *)

Lemma livesOf_app (t1 t2 : list Event) : livesOf (t1 ++ t2) = livesOf t1 ++ livesOf t2.
Proof. apply omap_app. Qed.

Lemma sendsOf_app (t1 t2 : list Event) : sendsOf (t1 ++ t2) = sendsOf t1 ++ sendsOf t2.
Proof. apply omap_app. Qed.

Lemma savesOf_app (t1 t2 : list Event) : savesOf (t1 ++ t2) = savesOf t1 ++ savesOf t2.
Proof. apply List.filter_app. Qed.

Section Tracked.
Context (env : Env).

Lemma failureIsFinal_nil {A} lives sends (o : Outcome A) :
  failureIsFinal env lives sends [] o.
Proof. intros [|??] ?? E; discriminate E. Qed.

Lemma failureIsFinal_quiet {A} lives sends ev (o : Outcome A) :
  ¬ failedAt env lives sends ev → failureIsFinal env lives sends [ev] o.
Proof.
  intros Hn [|? pre] ev' post E F; simplify_eq/=.
  - rewrite !Nat.add_0_r in F. done.
  - by destruct pre.
Qed.

Lemma failureIsFinal_last {A} lives sends ev e :
  failureIsFinal env lives sends [ev] (@Threw A e).
Proof.
  intros [|? pre] ev' post E F; simplify_eq/=.
  - split; [done|]. by exists e.
  - by destruct pre.
Qed.

Lemma tracked_ret {A} (a : A) : tracked env [] (ret a).
Proof.
  intros w. exists []. simpl. rewrite app_nil_r, !Nat.add_0_r.
  split_and!; try done. apply failureIsFinal_nil.
Qed.

Lemma tracked_throw {A} e : tracked env [] (@throw A e).
Proof.
  intros w. exists []. simpl. rewrite app_nil_r, !Nat.add_0_r.
  split_and!; try done. apply failureIsFinal_nil.
Qed.

Lemma tracked_bind {A B} p1 p2 (m : Eff A) (k : A → Eff B) :
  tracked env p1 m → (∀ a, tracked env p2 (k a)) → tracked env (p1 ++ p2) (bind m k).
Proof.
  intros Hm Hk w. unfold bind.
  destruct (Hm w) as (e1 & Ht & Hl & Hs & Hst & Hsv & Hp & Hd & Hf).
  destruct (m w) as [[a|e] w1]; simpl in *.
  - destruct (Hk a w1) as (e2 & Ht2 & Hl2 & Hs2 & Hst2 & Hsv2 & Hp2 & Hd2 & Hf2).
    exists (e1 ++ e2).
    rewrite livesOf_app, sendsOf_app, savesOf_app, !length_app.
    rewrite Ht2, Ht, Hl2, Hl, Hs2, Hs, Hst2, Hst, Hsv, Hsv2, <- app_assoc.
    rewrite (Hd (ex_intro _ a eq_refl)).
    split_and!; try done; try lia.
    + by apply prefix_app.
    + intros Hdone. by rewrite Hd2.
    + intros pre ev post E F.
      symmetry in E. apply app_eq_inv in E as [(k' & E1 & E2)|(k' & E1 & E2)].
      * subst. apply (Hf2 k' ev post eq_refl).
        rewrite livesOf_app, sendsOf_app, !length_app, !Nat.add_assoc in F.
        by rewrite Hl, Hs.
      * destruct k' as [|ev' k'']; simplify_eq/=.
        -- apply (Hf2 [] ev post eq_refl). simpl.
           rewrite Hl, Hs, !Nat.add_0_r, !app_nil_r. done.
        -- by destruct (Hf pre ev' k'' eq_refl F) as [_ [? [=]]].
  - exists e1. split_and!; try done.
    + by apply prefix_app_r.
    + intros [? [=]].
    + intros pre ev post E F. destruct (Hf _ _ _ E F) as [? _].
      split; [done|]. by exists e.
Qed.

Lemma tracked_bind_nil {A B} p (m : Eff A) (k : A → Eff B) :
  tracked env [] m → (∀ a, tracked env p (k a)) → tracked env p (bind m k).
Proof. apply (tracked_bind [] p). Qed.

Lemma tracked_bind_cons {A B} x p (m : Eff A) (k : A → Eff B) :
  tracked env [x] m → (∀ a, tracked env p (k a)) → tracked env (x :: p) (bind m k).
Proof. apply (tracked_bind [x] p). Qed.

Lemma tracked_emit e :
  match e with Live _ | Send _ _ | Save _ _ _ => False | _ => True end →
  tracked env [] (emit e).
Proof.
  intros He w. exists [e].
  destruct e; try done; simpl; rewrite ?Nat.add_0_r;
    (split_and!; try done); apply failureIsFinal_quiet; simpl; auto.
Qed.

Lemma tracked_consoleLog msg : tracked env [] (consoleLog msg).
Proof. by apply tracked_emit. Qed.

Lemma tracked_consoleError msg : tracked env [] (consoleError msg).
Proof. by apply tracked_emit. Qed.

Lemma tracked_log config msg : tracked env [] (log config msg).
Proof.
  unfold log. destruct (verboseLogging config);
    [apply tracked_consoleLog | apply tracked_ret].
Qed.

Lemma tracked_getTime : tracked env [] (getTime env).
Proof.
  intros w. exists []. simpl. rewrite app_nil_r, !Nat.add_0_r.
  split_and!; try done. apply failureIsFinal_nil.
Qed.

Lemma tracked_versionsLive parent : tracked env [parent] (versionsLive env parent).
Proof.
  intros w. exists [Live parent]. unfold versionsLive.
  destruct (live env (liveCalls w) parent) as [d|] eqn:E; simpl;
    (split_and!; try done; try lia).
  - apply failureIsFinal_quiet. simpl. by rewrite E.
  - apply failureIsFinal_last.
Qed.

Lemma tracked_registerWebhook url : tracked env [] (registerWebhook url).
Proof.
  intros w. exists []. unfold registerWebhook. destruct url; simpl;
    rewrite app_nil_r, !Nat.add_0_r; split_and!; try done;
    apply failureIsFinal_nil.
Qed.

Lemma tracked_lookupWebhook url : tracked env [] (lookupWebhook url).
Proof.
  intros w. exists []. unfold lookupWebhook.
  destruct url; [case_decide|]; simpl;
    rewrite app_nil_r, !Nat.add_0_r; split_and!; try done;
    apply failureIsFinal_nil.
Qed.

Lemma tracked_webhookSend url a : tracked env [] (webhookSend env url a).
Proof.
  intros w. exists [Send url a]. unfold webhookSend.
  destruct (deliver env (sendCalls w) url) eqn:E; simpl;
    (split_and!; try done; try lia).
  - apply failureIsFinal_quiet. simpl. by rewrite E.
  - apply failureIsFinal_last.
Qed.

Lemma tracked_callPrettyMs delta : tracked env [] (callPrettyMs env delta).
Proof.
  unfold callPrettyMs. destruct (prettyMs env delta);
    [apply tracked_ret | apply tracked_throw].
Qed.

Lemma tracked_required {A} (o : option A) : tracked env [] (required o).
Proof. destruct o; [apply tracked_ret | apply tracked_throw]. Qed.

Lemma tracked_forOf {A S} (plan : A → string) (body : A → S → Eff S) items s :
  (∀ x s, tracked env [plan x] (body x s)) →
  tracked env (plan <$> items) (forOf body items s).
Proof.
  intros Hb. revert s. induction items as [|x items IH]; intros s; simpl.
  - apply tracked_ret.
  - apply tracked_bind_cons; [apply Hb|]. intros s'. apply IH.
Qed.

Lemma tracked_forOf_concat {A S} (plan : A → list string) (body : A → S → Eff S)
    items s :
  (∀ x s, tracked env (plan x) (body x s)) →
  tracked env (concat (plan <$> items)) (forOf body items s).
Proof.
  intros Hb. revert s. induction items as [|x items IH]; intros s; simpl.
  - apply tracked_ret.
  - apply tracked_bind; [apply Hb|]. intros s'. apply IH.
Qed.

(** Follows the shape of a computation down to the primitives. *)
Ltac track :=
  lazymatch goal with
  | |- tracked _ _ (bind _ _) =>
      first [ eapply tracked_bind_nil; [solve [track] | intros; track]
            | eapply tracked_bind_cons; [solve [track] | intros; track] ]
  | |- tracked _ _ (match ?x with _ => _ end) => destruct x; track
  | |- tracked _ _ (if ?x then _ else _) => destruct x; track
  | |- tracked _ _ (let _ := _ in _) => cbv zeta; track
  | |- _ =>
      first [ apply tracked_ret | apply tracked_throw | apply tracked_consoleLog
            | apply tracked_consoleError | apply tracked_log | apply tracked_getTime
            | apply tracked_versionsLive | apply tracked_registerWebhook
            | apply tracked_lookupWebhook | apply tracked_webhookSend
            | apply tracked_callPrettyMs | apply tracked_required
            | assumption ]
  end.

Lemma tracked_IndexJs_containerBody config url a c s :
  tracked env [parentOf a c] (IndexJs.containerBody env config url a c s).
Proof.
  unfold IndexJs.containerBody, IndexJs.sendSlackMessage.
  unfold setVersionId, setLastChecked, sendSlackMessageWith, getRecord,
    lookupContainer, putRecord.
  track.
Qed.

Lemma tracked_Part000_containerBody config url a c s :
  tracked env [parentOf a c] (Part000.containerBody env config url a c s).
Proof.
  unfold Part000.containerBody, Part000.addContainerToState,
    Part000.checkPublishedVersionIdAgainstState, Part000.sendSlackMessage.
  unfold setVersionId, setLastChecked, sendSlackMessageWith, getRecord,
    lookupContainer, putRecord.
  track.
Qed.

Lemma tracked_bind_ret {A B} p (a : A) (k : A → Eff B) :
  tracked env p (k a) → tracked env p (bind (ret a) k).
Proof. intros H w. apply (H w). Qed.

Lemma tracked_bind_throw {A B} e (k : A → Eff B) :
  tracked env [] (bind (throw e) k).
Proof. intros w. apply (tracked_throw (A:=B) e w). Qed.

Lemma tracked_forContainer body config url g s :
  trackedBody env body →
  tracked env [parentOfContainer g] (forContainer body env config url g s).
Proof.
  intros Hb. unfold forContainer, parentOfContainer.
  destruct (splitIds g) as [a c]. simpl.
  apply tracked_bind_nil; [apply tracked_log|]. intros _. apply Hb.
Qed.

Lemma tracked_forSlack body config slack s :
  trackedBody env body →
  tracked env (plannedFor slack) (forSlack body env config slack s).
Proof.
  intros Hb. unfold forSlack, plannedFor.
  apply tracked_bind_nil; [apply tracked_log|]. intros _.
  apply tracked_bind_nil; [apply tracked_registerWebhook|]. intros _.
  destruct (gtmContainers slack) as [cs|]; simpl.
  - apply tracked_bind_ret, tracked_forOf. intros g s'.
    by apply tracked_forContainer.
  - apply tracked_bind_throw.
Qed.

Lemma silent_no_failure lives sends (evs pre : list Event) ev post :
  livesOf evs = [] → sendsOf evs = [] → evs = pre ++ ev :: post →
  ¬ failedAt env lives sends ev.
Proof.
  intros Hl Hs -> F.
  rewrite livesOf_app in Hl. rewrite sendsOf_app in Hs.
  apply app_eq_nil in Hl as [_ Hl]. apply app_eq_nil in Hs as [_ Hs].
  by destruct ev.
Qed.

Lemma failureIsFinal_silent {A} lives sends evs (o : Outcome A) :
  livesOf evs = [] → sendsOf evs = [] → failureIsFinal env lives sends evs o.
Proof.
  intros Hl Hs pre ev post E F. by destruct (silent_no_failure _ _ _ _ _ _ Hl Hs E F).
Qed.

Lemma tracked_loadState b f : tracked env [] (loadState env b f).
Proof.
  intros w. unfold loadState, tryCatch, downloadState, bind, consoleLog, emit, ret.
  simpl.
  destruct (objectKey b f) as [[b' f']|]; [destruct (downloadOk env)|];
    [destruct (storage w !! (b', f')) as [[|state]|]| |]; simpl;
    rewrite <- ?app_assoc; simpl; eexists; (split; [reflexivity|]); simpl;
    rewrite ?Nat.add_0_r; (split_and!; try done);
    by apply failureIsFinal_silent.
Qed.

Lemma tracked_getClient : tracked env [] (getClient env).
Proof.
  unfold getClient. apply tracked_bind_nil; [by apply tracked_emit|]. intros _.
  destruct (clientOk env); [apply tracked_ret | apply tracked_throw].
Qed.

(** The two loops, from [auth.getClient()] to the end of the outer loop. *)
Lemma tracked_loops body config s :
  trackedBody env body →
  tracked env (planned config)
    (getClient env ;;
     items <- required (slackOutput config) ;;
     forOf (forSlack body env config) items s).
Proof.
  intros Hb. unfold planned.
  apply tracked_bind_nil; [apply tracked_getClient|]. intros _.
  destruct (slackOutput config) as [items|]; simpl.
  - apply tracked_bind_ret, tracked_forOf_concat. intros slack s'.
    by apply tracked_forSlack.
  - apply tracked_bind_throw.
Qed.

Lemma aborting_of_tracked {A} p (m : Eff A) : tracked env p m → aborting env p m.
Proof.
  intros Hm w. destruct (Hm w) as (evs & Ht & Hl & Hs & Hst & Hsv & Hp & Hd & Hf).
  exists evs. split_and!; try done.
  intros pre ev post E F. destruct (Hf pre ev post E F) as [? ?]. done.
Qed.

Lemma aborting_bind {A B} p1 p2 (m : Eff A) (k : A → Eff B) :
  tracked env p1 m → (∀ a, aborting env p2 (k a)) →
  aborting env (p1 ++ p2) (bind m k).
Proof.
  intros Hm Hk w. unfold bind.
  destruct (Hm w) as (e1 & Ht & Hl & Hs & Hst & Hsv & Hp & Hd & Hf).
  destruct (m w) as [[a|e] w1]; simpl in *.
  - destruct (Hk a w1) as (e2 & Ht2 & Hp2 & Hd2 & Hst2 & Hf2).
    exists (e1 ++ e2).
    rewrite livesOf_app, savesOf_app, Ht2, Ht, <- app_assoc, Hsv.
    rewrite (Hd (ex_intro _ a eq_refl)). rewrite <- Hst.
    split_and!; try done.
    + by apply prefix_app.
    + intros Hdone. by rewrite Hd2.
    + intros pre ev post E F.
      symmetry in E. apply app_eq_inv in E as [(k' & E1 & E2)|(k' & E1 & E2)].
      * subst. apply (Hf2 k' ev post eq_refl).
        rewrite livesOf_app, sendsOf_app, !length_app, !Nat.add_assoc in F.
        by rewrite Hl, Hs.
      * destruct k' as [|ev' k'']; simplify_eq/=.
        -- apply (Hf2 [] ev post eq_refl). simpl.
           rewrite Hl, Hs, !Nat.add_0_r, !app_nil_r. done.
        -- by destruct (Hf pre ev' k'' eq_refl F) as [_ [? [=]]].
  - exists e1. split_and!; try done.
    + by apply prefix_app_r.
    + intros [? [=]].
    + intros pre ev post E F. destruct (Hf _ _ _ E F) as [? _].
      split_and!; try done. by exists e.
Qed.

Lemma aborting_saveState b f s : aborting env [] (saveState env b f s).
Proof.
  intros w. unfold saveState, bind, consoleLog, emit. simpl.
  destruct (objectKey b f) as [[b' f']|]; [destruct (saveOk env)|]; simpl;
    rewrite <- ?app_assoc; simpl; eexists; (split; [reflexivity|]); simpl;
    (split_and!; try done); try (by intros [? [=]]);
    intros pre ev post E F;
    exfalso; by eapply silent_no_failure; [| |exact E|exact F].
Qed.

Lemma aborting_checkAll body config :
  trackedBody env body → aborting env (planned config) (checkAll body env config).
Proof.
  intros Hb. unfold checkAll, checkContainers.
  apply (aborting_bind [] (planned config)); [apply tracked_consoleLog|]. intros _.
  apply (aborting_bind [] (planned config)); [apply tracked_required|]. intros g.
  apply (aborting_bind [] (planned config)); [apply tracked_loadState|]. intros s.
  apply (aborting_bind [] (planned config)); [apply tracked_getClient|]. intros _.
  unfold planned. destruct (slackOutput config) as [items|]; simpl.
  - intros w. change (bind (ret items) ?k w) with (k items w). revert w.
    rewrite <- (app_nil_r (concat _)).
    apply aborting_bind; [|intros s'; apply aborting_saveState].
    apply tracked_forOf_concat. intros slack s'. by apply tracked_forSlack.
  - apply aborting_of_tracked, tracked_bind_throw.
Qed.
End Tracked.

(** * The state object *)

Lemma recordAt_setRecord (s : GtmState) (a c : string) (r : ContainerRecord) :
  recordAt (setRecord s a c r) a c = Some r.
Proof. unfold recordAt, setRecord. rewrite lookup_insert_eq. simpl. apply lookup_insert_eq. Qed.

Lemma recordAt_setRecord_ne (s : GtmState) (a c a' c' : string) (r : ContainerRecord) :
  (a, c) ≠ (a', c') → recordAt (setRecord s a c r) a' c' = recordAt s a' c'.
Proof.
  intros Hne. unfold recordAt, setRecord.
  destruct (decide (a = a')) as [<-|Ha].
  - rewrite lookup_insert_eq. simpl.
    rewrite lookup_insert_ne by congruence.
    by destruct (s !! a).
  - by rewrite lookup_insert_ne.
Qed.

Lemma setRecord_setRecord (s : GtmState) (a c : string) (r r' : ContainerRecord) :
  setRecord (setRecord s a c r) a c r' = setRecord s a c r'.
Proof.
  unfold setRecord. rewrite lookup_insert_eq. simpl.
  by rewrite insert_insert_eq, insert_insert_eq.
Qed.

Lemma setRecord_id (s : GtmState) (a c : string) (r : ContainerRecord) :
  recordAt s a c = Some r → setRecord s a c r = s.
Proof.
  unfold recordAt, setRecord. intros H.
  destruct (s !! a) as [account|] eqn:E; [|done]. simpl in *.
  by rewrite (insert_id account), insert_id.
Qed.

Lemma lookup_ensureAccount (s : GtmState) (a : string) :
  ensureAccount s a !! a = Some (default ∅ (s !! a)).
Proof.
  unfold ensureAccount. destruct (s !! a) eqn:E; simpl; [done|].
  apply lookup_insert_eq.
Qed.

Lemma recordAt_ensureAccount (s : GtmState) (a a' c' : string) :
  recordAt (ensureAccount s a) a' c' = recordAt s a' c'.
Proof.
  unfold recordAt, ensureAccount. destruct (s !! a) eqn:E; [done|].
  destruct (decide (a = a')) as [<-|Ha].
  - by rewrite lookup_insert_eq, E.
  - by rewrite lookup_insert_ne.
Qed.

Lemma setRecord_ensureAccount (s : GtmState) (a c : string) (r : ContainerRecord) :
  setRecord (ensureAccount s a) a c r = setRecord s a c r.
Proof.
  unfold setRecord. rewrite lookup_ensureAccount. simpl.
  unfold ensureAccount. destruct (s !! a); [done|]. by rewrite insert_insert_eq.
Qed.

Lemma lookupContainer_ensureAccount (s : GtmState) (a c : string) (w : World) :
  lookupContainer (ensureAccount s a) a c w = (Done (recordAt s a c), w).
Proof.
  unfold lookupContainer. rewrite lookup_ensureAccount.
  unfold recordAt, ret. by destruct (s !! a).
Qed.

Lemma putRecord_ensureAccount (s : GtmState) (a c : string) (r : ContainerRecord)
    (w : World) :
  putRecord (ensureAccount s a) a c r w = (Done (setRecord s a c r), w).
Proof.
  unfold putRecord. rewrite lookup_ensureAccount. unfold ret.
  rewrite <- setRecord_ensureAccount. unfold setRecord.
  by rewrite lookup_ensureAccount.
Qed.

Lemma getRecord_setRecord (s : GtmState) (a c : string) (r : ContainerRecord)
    (w : World) :
  getRecord (setRecord s a c r) a c w = (Done r, w).
Proof.
  unfold getRecord, lookupContainer, bind, setRecord.
  rewrite lookup_insert_eq. simpl. by rewrite lookup_insert_eq.
Qed.

Lemma putRecord_setRecord (s : GtmState) (a c : string) (r r' : ContainerRecord)
    (w : World) :
  putRecord (setRecord s a c r) a c r' w = (Done (setRecord s a c r'), w).
Proof.
  unfold putRecord, setRecord. rewrite lookup_insert_eq. unfold ret.
  by rewrite insert_insert_eq, insert_insert_eq.
Qed.

Lemma setVersionId_setRecord (s : GtmState) (a c v : string) (r : ContainerRecord)
    (w : World) :
  setVersionId (setRecord s a c r) a c v w =
  (Done (setRecord s a c
           {| containerVersionId := Some v; lastChecked := lastChecked r |}), w).
Proof.
  unfold setVersionId, bind. by rewrite getRecord_setRecord, putRecord_setRecord.
Qed.

Lemma setLastChecked_setRecord (env : Env) (s : GtmState) (a c : string)
    (r : ContainerRecord) (w : World) :
  setLastChecked env (setRecord s a c r) a c w =
  (Done (setRecord s a c
           {| containerVersionId := containerVersionId r;
              lastChecked := Some (clock env (clockReads w)) |}),
   advance [] 1 0 0 w).
Proof.
  unfold setLastChecked, bind. rewrite getRecord_setRecord. simpl.
  by rewrite putRecord_setRecord.
Qed.

(** * The loop bodies, case by case *)

Lemma advance_advance (e1 e2 : list Event) (c1 l1 s1 c2 l2 s2 : nat) (w : World) :
  advance e2 c2 l2 s2 (advance e1 c1 l1 s1 w) =
  advance (e1 ++ e2) (c2 + c1) (l2 + l1) (s2 + s1) w.
Proof. unfold advance. simpl. f_equal; [by rewrite app_assoc|lia..]. Qed.

Lemma advance_nil (w : World) : advance [] 0 0 0 w = w.
Proof. destruct w. unfold advance. simpl. by rewrite app_nil_r. Qed.

Lemma log_eval (config : Config) (msg : string) (w : World) :
  log config msg w = (Done tt, advance (logsOf config [msg]) 0 0 0 w).
Proof.
  unfold log, logsOf. destruct (verboseLogging config); [done|].
  by rewrite advance_nil.
Qed.

Lemma logsOf_cons (config : Config) (msg : string) (msgs : list string) :
  logsOf config (msg :: msgs) = logsOf config [msg] ++ logsOf config msgs.
Proof. unfold logsOf. by destruct (verboseLogging config). Qed.

Lemma sendsOf_logsOf (config : Config) (msgs : list string) :
  sendsOf (logsOf config msgs) = [].
Proof.
  unfold logsOf. destruct (verboseLogging config); [|done].
  by induction msgs.
Qed.

Lemma livesOf_logsOf (config : Config) (msgs : list string) :
  livesOf (logsOf config msgs) = [].
Proof.
  unfold logsOf. destruct (verboseLogging config); [|done].
  by induction msgs.
Qed.

Lemma truthyStr_Some (v : string) : truthyStr (Some v) = true ↔ v ≠ "".
Proof.
  simpl. destruct (String.eqb_spec v ""); simpl; split; congruence.
Qed.

Lemma ensureAccount_present (s : GtmState) (a c : string) (r : ContainerRecord) :
  recordAt s a c = Some r → ensureAccount s a = s.
Proof. unfold recordAt, ensureAccount. by destruct (s !! a). Qed.

Lemma bind_ret_l {A B} (a : A) (k : A → Eff B) (w : World) :
  bind (ret a) k w = k a w.
Proof. reflexivity. Qed.

(** [index.js] lines 157-166, on a state in which the entry exists. *)
Lemma IndexJs_compare_eval env config url a c s r d w :
  (r0 <- getRecord (setRecord s a c r) a c ;;
   gtmState0 <-
     (if decide (containerVersionId r0 ≠ Some (liveVersionId d)) then
        log config (changedMsg a c) ;;
        IndexJs.sendSlackMessage env (lastChecked r0) d url ;;
        setVersionId (setRecord s a c r) a c (liveVersionId d)
      else
        log config (sameMsg a c) ;;
        ret (setRecord s a c r)) ;;
   setLastChecked env gtmState0 a c) w =
  if bool_decide (containerVersionId r ≠ Some (liveVersionId d)) then
    afterSend env d s a c
      (IndexJs.sendSlackMessage env (lastChecked r) d url
         (advance (logsOf config [changedMsg a c]) 0 0 0 w))
  else
    (Done (setRecord s a c (checkedRecord d (clock env (clockReads w)))),
     advance (logsOf config [sameMsg a c]) 1 0 0 w).
Proof.
  unfold bind at 1. rewrite getRecord_setRecord.
  unfold bind at 1. case_bool_decide as Hd; rewrite decide_bool_decide.
  - rewrite bool_decide_eq_true_2 by done.
    unfold bind at 1. rewrite log_eval.
    unfold bind at 1. unfold afterSend.
    destruct (IndexJs.sendSlackMessage _ _ _ _ _) as [[[]|e] w1]; [|done].
    rewrite setVersionId_setRecord, setLastChecked_setRecord. reflexivity.
  - rewrite bool_decide_eq_false_2 by (intros Hn; by apply Hn).
    unfold bind at 1. rewrite log_eval. unfold ret. cbv beta iota.
    rewrite setLastChecked_setRecord, advance_advance, Hd, app_nil_r. reflexivity.
Qed.

Lemma afterSend_setRecord env d s a c r sent :
  afterSend env d (setRecord s a c r) a c sent = afterSend env d s a c sent.
Proof.
  destruct sent as [[[]|e] w]; [|done]. simpl. by rewrite setRecord_setRecord.
Qed.

Lemma IndexJs_containerBody_eval env config url a c s w :
  IndexJs.containerBody env config url a c s w =
  match live env (liveCalls w) (parentOf a c) with
  | None => (Threw ApiError, advance [Live (parentOf a c)] 0 1 0 w)
  | Some d =>
      if notifiesIndexJs (recordAt s a c) d then
        afterSend env d s a c
          (IndexJs.sendSlackMessage env (recordAt s a c ≫= lastChecked) d url
             (advance (Live (parentOf a c) :: logsOf config [changedMsg a c]) 0 1 0 w))
      else
        (Done (setRecord s a c (checkedRecord d (clock env (clockReads w)))),
         advance (Live (parentOf a c) ::
                  logsOf config (quietLogsIndexJs (recordAt s a c) a c)) 1 1 0 w)
  end.
Proof.
  unfold IndexJs.containerBody. unfold bind at 1. unfold versionsLive.
  destruct (live env (liveCalls w) (parentOf a c)) as [d|]; [|done].
  unfold bind at 1. rewrite lookupContainer_ensureAccount.
  destruct (recordAt s a c) as [r|] eqn:E;
    cbn [notifiesIndexJs quietLogsIndexJs mbind option_bind].
  - rewrite (ensureAccount_present s a c r E), bind_ret_l. cbv beta.
    rewrite <- (setRecord_id s a c r E).
    rewrite IndexJs_compare_eval, !advance_advance.
    rewrite afterSend_setRecord, setRecord_setRecord. reflexivity.
  - unfold bind at 1. unfold bind at 1. rewrite log_eval, putRecord_ensureAccount.
    rewrite IndexJs_compare_eval, !advance_advance.
    rewrite bool_decide_eq_false_2 by (intros Hn; by apply Hn).
    rewrite (logsOf_cons config (missingMsg a c) [sameMsg a c]), <- app_assoc.
    reflexivity.
Qed.

Lemma addContainerToState_eval s a c w :
  Part000.addContainerToState s a c w =
  (Done (setRecord s a c (Part000.orEmpty (recordAt s a c))), w).
Proof.
  unfold Part000.addContainerToState, bind.
  by rewrite lookupContainer_ensureAccount, putRecord_ensureAccount.
Qed.

Lemma Part000_containerBody_eval env config url a c s w :
  Part000.containerBody env config url a c s w =
  match live env (liveCalls w) (parentOf a c) with
  | None => (Threw ApiError, advance [Live (parentOf a c)] 0 1 0 w)
  | Some d =>
      if notifiesPart000 (recordAt s a c) d then
        afterSend env d s a c
          (Part000.sendSlackMessage env (recordAt s a c ≫= lastChecked) d url
             (advance (Live (parentOf a c) :: logsOf config [changedMsg a c]) 0 1 0 w))
      else
        (Done (setRecord s a c (checkedRecord d (clock env (clockReads w)))),
         advance (Live (parentOf a c) ::
                  logsOf config (quietLogsPart000 (recordAt s a c) a c)) 1 1 0 w)
  end.
Proof.
  unfold Part000.containerBody. unfold bind at 1. rewrite addContainerToState_eval.
  unfold bind at 1. unfold Part000.checkPublishedVersionIdAgainstState.
  unfold bind at 1. unfold versionsLive.
  destruct (live env (liveCalls w) (parentOf a c)) as [d|]; [|done].
  unfold bind at 1. rewrite getRecord_setRecord.
  unfold bind at 1.
  assert (notifiesPart000 (recordAt s a c) d =
          truthyStr (containerVersionId (Part000.orEmpty (recordAt s a c))) &&
          bool_decide (containerVersionId (Part000.orEmpty (recordAt s a c))
                       ≠ Some (liveVersionId d))) as ->.
  { by destruct (recordAt s a c). }
  assert (quietLogsPart000 (recordAt s a c) a c =
          if truthyStr (containerVersionId (Part000.orEmpty (recordAt s a c)))
          then [sameMsg a c] else [missingMsg a c]) as ->.
  { unfold quietLogsPart000. by destruct (recordAt s a c). }
  assert (recordAt s a c ≫= lastChecked =
          lastChecked (Part000.orEmpty (recordAt s a c))) as Hlc.
  { by destruct (recordAt s a c). }
  destruct (truthyStr (containerVersionId (Part000.orEmpty (recordAt s a c))));
    cbn [negb andb].
  - rewrite decide_bool_decide. case_bool_decide as Hd.
    + unfold bind at 1. rewrite log_eval. rewrite Hlc, advance_advance.
      unfold afterSend.
      destruct (Part000.sendSlackMessage _ _ _ _ _) as [[[]|e] w1]; [|done].
      rewrite setVersionId_setRecord, setLastChecked_setRecord. reflexivity.
    + rewrite log_eval, setVersionId_setRecord, setLastChecked_setRecord.
      rewrite !advance_advance, app_nil_r. reflexivity.
  - rewrite log_eval, setVersionId_setRecord, setLastChecked_setRecord.
    rewrite !advance_advance, app_nil_r. reflexivity.
Qed.

Lemma sendSlackMessageWith_eval closing env lc d url w :
  sendSlackMessageWith closing env lc d url w =
  let now := clock env (clockReads w) in
  match url with
  | Some u =>
      if decide (u ∈ webhooks w) then
        match prettyMs env ((fun l => now - l)%Z <$> lc) with
        | Some pretty =>
            (if deliver env (sendCalls w) u then Done tt else Threw WebhookError,
             advance [Send u (attachmentOf now d (textOf pretty closing))] 1 0 1 w)
        | None => (Threw TypeError, advance [] 1 0 0 w)
        end
      else (Threw TypeError, advance [] 1 0 0 w)
  | None => (Threw TypeError, advance [] 1 0 0 w)
  end.
Proof.
  unfold sendSlackMessageWith, bind, getTime, lookupWebhook, callPrettyMs,
    webhookSend. simpl.
  destruct url as [u|]; [|done]. case_decide; [|done].
  destruct (prettyMs env _) as [pretty|]; [|done]. simpl.
  destruct (deliver env (sendCalls w) u); rewrite advance_advance; reflexivity.
Qed.

(** Every pass that returns has fetched a version and left it, with a time,
    in the record of the container. *)
Lemma afterSend_done env d s a c sent s' w' :
  afterSend env d s a c sent = (Done s', w') →
  ∃ t, s' = setRecord s a c (checkedRecord d t).
Proof. destruct sent as [[[]|e] w]; intros [= <- <-]; eauto. Qed.

Lemma containerBody_done env config url a c s w s' w' :
  inBothBodies (fun body =>
    body env config url a c s w = (Done s', w') →
    ∃ d t, live env (liveCalls w) (parentOf a c) = Some d ∧
           s' = setRecord s a c (checkedRecord d t)).
Proof.
  split; [rewrite IndexJs_containerBody_eval | rewrite Part000_containerBody_eval];
    (destruct (live env (liveCalls w) (parentOf a c)) as [d|]; [|done]);
    intros H; exists d;
    [destruct (notifiesIndexJs _ _) | destruct (notifiesPart000 _ _)];
    first [ apply afterSend_done in H as [t ->]; by exists t
          | injection H as <- <-; eexists; done ].
Qed.

(** A first observation, in closed form: the pass returns with the fetched
    version and the time of the pass in the record, having fetched and
    logged, and nothing else. *)
Lemma firstObservation_eval f env config url a c s w d :
  firstObservation f (recordAt s a c) →
  live env (liveCalls w) (parentOf a c) = Some d →
  ∃ msgs,
    bodyOf f env config url a c s w =
    (Done (setRecord s a c (checkedRecord d (clock env (clockReads w)))),
     advance (Live (parentOf a c) :: logsOf config msgs) 1 1 0 w).
Proof.
  intros Hf Hl. destruct f; simpl in *.
  - rewrite IndexJs_containerBody_eval, Hl, Hf. simpl. by eexists.
  - rewrite Part000_containerBody_eval, Hl.
    assert (notifiesPart000 (recordAt s a c) d = false) as ->.
    { destruct (recordAt s a c) as [r|]; [|done]. simpl in *. by rewrite Hf. }
    by eexists.
Qed.

(** * Loops *)

Lemma forOf_invariant {A S} (I : S → Prop) (P : World → Prop)
    (body : A → S → Eff S) (items : list A) :
  (∀ x s w, x ∈ items → I s → P w →
     P (body x s w).2 ∧ ∀ s', (body x s w).1 = Done s' → I s') →
  ∀ s w, I s → P w →
    P (forOf body items s w).2 ∧ ∀ s', (forOf body items s w).1 = Done s' → I s'.
Proof.
  induction items as [|x items IH]; intros Hb s w HI HP; simpl.
  - split; [done|]. by intros s' [= <-].
  - unfold bind. destruct (Hb x s w) as [HP1 HI1]; [apply list_elem_of_here|done..|].
    destruct (body x s w) as [[s1|e] w1]; simpl in *; [|done].
    apply IH; [|by apply HI1|done].
    intros y s2 w2 Hy. apply Hb. by apply list_elem_of_further.
Qed.

Lemma forOf_done {A S} (Q : A → S → Prop) (body : A → S → Eff S) :
  (∀ x s w s' w', body x s w = (Done s', w') → Q x s' ∧ ∀ y, Q y s → Q y s') →
  ∀ items s w s' w', forOf body items s w = (Done s', w') →
    (∀ x, x ∈ items → Q x s') ∧ (∀ y, Q y s → Q y s').
Proof.
  intros Hb. induction items as [|x items IH]; intros s w s' w'; simpl.
  - intros [= <- <-]. split; [|done]. intros x Hx. by apply elem_of_nil in Hx.
  - unfold bind. destruct (body x s w) as [[s1|e] w1] eqn:E; [|done].
    intros Hrest. destruct (Hb _ _ _ _ _ E) as [Hx Hkeep].
    destruct (IH _ _ _ _ Hrest) as [Hall Hkeep'].
    split; [|by auto].
    intros y [->|Hy]%elem_of_cons; [by apply Hkeep'|by apply Hall].
Qed.

(** ** One pass against a remote that does not change *)

Lemma known_consistent vid g s : known vid g s → consistent vid g s.
Proof. intros (r & Hr & Hv) r' Hr'. congruence. Qed.

Lemma setRecord_known vid d t g s a c :
  liveVersionId d = vid (parentOf a c) →
  splitIds g = (a, c) →
  known vid g (setRecord s a c (checkedRecord d t)).
Proof.
  intros Hv Hg. unfold known, parentOfContainer. rewrite Hg. simpl.
  rewrite recordAt_setRecord. eexists. split; [done|]. simpl. by rewrite Hv.
Qed.

Lemma setRecord_keeps_known vid d t g s a c :
  liveVersionId d = vid (parentOf a c) →
  known vid g s → known vid g (setRecord s a c (checkedRecord d t)).
Proof.
  intros Hv Hk. destruct (decide (splitIds g = (a, c))) as [Hg|Hg].
  - by apply setRecord_known.
  - unfold known. rewrite recordAt_setRecord_ne; [done|].
    intros Heq. apply Hg. by destruct (splitIds g); simplify_eq/=.
Qed.

Lemma setRecord_keeps_consistent vid d t g s a c :
  liveVersionId d = vid (parentOf a c) →
  consistent vid g s → consistent vid g (setRecord s a c (checkedRecord d t)).
Proof.
  intros Hv Hk. destruct (decide (splitIds g = (a, c))) as [Hg|Hg].
  - by apply known_consistent, setRecord_known.
  - unfold consistent. rewrite recordAt_setRecord_ne; [done|].
    intros Heq. apply Hg. by destruct (splitIds g); simplify_eq/=.
Qed.

(** A pass that returns has learnt the live version and forgotten none. *)
Lemma bodyOf_done f vid env config url a c s w s' w' :
  stableRemote vid env →
  bodyOf f env config url a c s w = (Done s', w') →
  ∃ d t, liveVersionId d = vid (parentOf a c) ∧
         s' = setRecord s a c (checkedRecord d t).
Proof.
  intros Hst Hrun.
  destruct (containerBody_done env config url a c s w s' w') as [H1 H2].
  destruct f; simpl in Hrun;
    [destruct (H1 Hrun) as (d & t & Hl & ->) | destruct (H2 Hrun) as (d & t & Hl & ->)];
    exists d, t; split; try done; by eapply Hst.
Qed.

(** A pass over a container whose record does not contradict the remote
    sends nothing. *)
Lemma bodyOf_consistent_silent f vid env config url a c s w :
  stableRemote vid env →
  (∀ r, recordAt s a c = Some r → containerVersionId r = Some (vid (parentOf a c))) →
  sendsOf (trace (bodyOf f env config url a c s w).2) = sendsOf (trace w).
Proof.
  intros Hst Hc.
  assert (∀ d, live env (liveCalls w) (parentOf a c) = Some d →
               notifiesIndexJs (recordAt s a c) d = false ∧
               notifiesPart000 (recordAt s a c) d = false) as Hq.
  { intros d Hl. apply Hst in Hl.
    destruct (recordAt s a c) as [r|]; [|done]. simpl.
    rewrite (Hc r eq_refl), Hl.
    rewrite bool_decide_eq_false_2 by (intros Hn; by apply Hn).
    by rewrite andb_false_r. }
  destruct f; simpl;
    [rewrite IndexJs_containerBody_eval | rewrite Part000_containerBody_eval];
    (destruct (live env (liveCalls w) (parentOf a c)) as [d|];
      [destruct (Hq d eq_refl) as [Hq1 Hq2]; rewrite ?Hq1, ?Hq2|]);
    simpl; rewrite sendsOf_app; simpl; rewrite ?sendsOf_logsOf, ?app_nil_r; done.
Qed.

(** * The validation gate *)

Arguments validateConfig : simpl never.

Lemma getGtmInfoWith_refused body env config w :
  error (validateConfig config) = true →
  getGtmInfoWith body env config w = (Done tt, advance (refusal config) 0 0 0 w).
Proof.
  intros H. unfold getGtmInfoWith, bind, consoleLog, consoleError, emit.
  rewrite H. by rewrite advance_advance.
Qed.

Lemma getGtmInfoWith_accepted body env config w :
  error (validateConfig config) = false →
  getGtmInfoWith body env config w =
  checkAll body env config (advance [ConsoleLog "Validating config.json"] 0 0 0 w).
Proof.
  intros H. unfold getGtmInfoWith, bind, consoleLog, emit. by rewrite H.
Qed.


(** * Order of the fetches and abort on failure, for a whole run *)

Lemma inOrderUntilFailure_with body env config w :
  trackedBody env body →
  inOrderUntilFailure env config w (getGtmInfoWith body).
Proof.
  intros Hb. unfold inOrderUntilFailure.
  destruct (error (validateConfig config)) eqn:E.
  - rewrite getGtmInfoWith_refused by done. exists (refusal config). simpl.
    split; [done|]. split; [apply prefix_nil|]. split; [done|].
    split; [by intros [? [=]]|].
    intros pre ev post Hev F. exfalso.
    by eapply (silent_no_failure env); [| |exact Hev|exact F].
  - rewrite getGtmInfoWith_accepted by done.
    set (w1 := advance [ConsoleLog "Validating config.json"] 0 0 0 w).
    destruct (aborting_checkAll env body config Hb w1)
      as (evs & Ht & Hp & Hd & Hst & Hf).
    exists (ConsoleLog "Validating config.json" :: evs).
    rewrite Ht. simpl. rewrite <- app_assoc. simpl.
    split_and!; try done.
    + intros Hdone _. by apply Hd.
    + intros pre ev post Hev F.
      destruct pre as [|e0 pre]; simplify_eq/=; [done|].
      by apply (Hf pre ev post eq_refl).
Qed.

(** * Two runs against a remote that does not change *)

Lemma forContainer_eval body env config url g s w :
  forContainer body env config url g s w =
  body env config url (splitIds g).1 (splitIds g).2 s
    (advance
       (logsOf config
          [tag (splitIds g).1 (splitIds g).2 +:+ ": Checking version state."])
       0 0 0 w).
Proof.
  unfold forContainer. destruct (splitIds g) as [a c]. simpl.
  unfold bind. by rewrite log_eval.
Qed.

(** An entry of [slackOutput] either throws before its first container or
    runs the inner loop, in a world that differs by a log line and the
    registered webhook. *)
Lemma forSlack_cases body env config slack s w :
  (∃ e w1, forSlack body env config slack s w = (Threw e, w1) ∧
           sendsOf (trace w1) = sendsOf (trace w)) ∨
  (∃ cs w1, gtmContainers slack = Some cs ∧
            sendsOf (trace w1) = sendsOf (trace w) ∧
            forSlack body env config slack s w =
            forOf (forContainer body env config (slackWebhookUrl slack)) cs s w1).
Proof.
  unfold forSlack.
  destruct (slackWebhookUrl slack) as [u|], (gtmContainers slack) as [cs|];
    unfold bind, registerWebhook, required, ret, throw; rewrite log_eval;
    cbv beta iota.
  - right. eexists cs, _. split; [done|]. split; [|reflexivity].
    simpl. by rewrite sendsOf_app, sendsOf_logsOf, app_nil_r.
  - left. eexists _, _. split; [reflexivity|].
    simpl. by rewrite sendsOf_app, sendsOf_logsOf, app_nil_r.
  - left. eexists _, _. split; [reflexivity|].
    simpl. by rewrite sendsOf_app, sendsOf_logsOf, app_nil_r.
  - left. eexists _, _. split; [reflexivity|].
    simpl. by rewrite sendsOf_app, sendsOf_logsOf, app_nil_r.
Qed.

Lemma elem_of_concat {A} (x : A) (ls : list (list A)) :
  x ∈ concat ls ↔ ∃ l, x ∈ l ∧ l ∈ ls.
Proof.
  induction ls as [|l ls IH]; simpl.
  - split; [by intros ?%elem_of_nil|]. by intros (l & _ & ?%elem_of_nil).
  - rewrite elem_of_app, IH. split.
    + intros [H|(l' & H & Hl')]; [exists l|exists l']; split; try done;
        [apply list_elem_of_here | by apply list_elem_of_further].
    + intros (l' & H & [->|Hl']%elem_of_cons); [by left|]. right. by exists l'.
Qed.

Lemma elem_of_allContainers config items slack cs g :
  slackOutput config = Some items → slack ∈ items →
  gtmContainers slack = Some cs → g ∈ cs → g ∈ allContainers config.
Proof.
  intros Hi Hs Hc Hg. unfold allContainers. rewrite Hi. simpl.
  apply elem_of_concat. exists cs. split; [done|].
  apply list_elem_of_fmap. exists slack. by rewrite Hc.
Qed.

Section Stable.
Context (vid : string → string) (env : Env) (config : Config) (f : File).
Context (Hstable : stableRemote vid env).

Lemma forContainer_agrees url g s w :
  g ∈ allContainers config → agrees vid config s →
  sendsOf (trace (forContainer (bodyOf f) env config url g s w).2) =
    sendsOf (trace w) ∧
  ∀ s', (forContainer (bodyOf f) env config url g s w).1 = Done s' → agrees vid config s'.
Proof.
  intros Hg Ha. rewrite forContainer_eval. split.
  - erewrite bodyOf_consistent_silent; [|done|apply Ha, Hg].
    simpl. by rewrite sendsOf_app, sendsOf_logsOf, app_nil_r.
  - intros s' Hs'.
    destruct (bodyOf f env config url _ _ s _) as [o w'] eqn:E.
    simpl in Hs'. subst o.
    destruct (bodyOf_done _ _ _ _ _ _ _ _ _ _ _ Hstable E) as (d & t & Hv & ->).
    intros g' Hg'. by apply setRecord_keeps_consistent, Ha.
Qed.

Lemma forSlack_agrees items slack s w N :
  slackOutput config = Some items → slack ∈ items → agrees vid config s →
  sendsOf (trace w) = N →
  sendsOf (trace (forSlack (bodyOf f) env config slack s w).2) = N ∧
  ∀ s', (forSlack (bodyOf f) env config slack s w).1 = Done s' → agrees vid config s'.
Proof.
  intros Hi Hs Ha HN.
  destruct (forSlack_cases (bodyOf f) env config slack s w)
    as [(e & w1 & -> & Hw1)|(cs & w1 & Hcs & Hw1 & ->)].
  - simpl. split; [congruence|done].
  - apply (forOf_invariant (agrees vid config) (fun w => sendsOf (trace w) = N));
      [|done|congruence].
    intros g s0 w0 Hg Ha0 HN0.
    destruct (forContainer_agrees (slackWebhookUrl slack) g s0 w0) as [H1 H2];
      [by eapply elem_of_allContainers|done|].
    split; [congruence|done].
Qed.

Lemma loops_agree items s w N :
  slackOutput config = Some items → agrees vid config s → sendsOf (trace w) = N →
  sendsOf (trace (forOf (forSlack (bodyOf f) env config) items s w).2) = N.
Proof.
  intros Hi Ha HN.
  apply (forOf_invariant (agrees vid config) (fun w => sendsOf (trace w) = N)); [|done..].
  intros slack s0 w0 Hs Ha0 HN0. by eapply forSlack_agrees.
Qed.

Lemma forContainer_learns url g s w s' w' :
  forContainer (bodyOf f) env config url g s w = (Done s', w') →
  known vid g s' ∧ ∀ g', known vid g' s → known vid g' s'.
Proof.
  rewrite forContainer_eval. intros E.
  destruct (bodyOf_done _ _ _ _ _ _ _ _ _ _ _ Hstable E) as (d & t & Hv & ->).
  split.
  - apply setRecord_known; [done|]. by destruct (splitIds g).
  - intros g'. by apply setRecord_keeps_known.
Qed.

Lemma forSlack_learns slack s w s' w' :
  forSlack (bodyOf f) env config slack s w = (Done s', w') →
  (∀ g, g ∈ default [] (gtmContainers slack) → known vid g s') ∧
  ∀ g', known vid g' s → known vid g' s'.
Proof.
  destruct (forSlack_cases (bodyOf f) env config slack s w)
    as [(e & w1 & -> & Hw1)|(cs & w1 & Hcs & Hw1 & ->)]; [done|].
  rewrite Hcs. simpl. apply (forOf_done (known vid)).
  intros g s0 w0 s1 w2. apply forContainer_learns.
Qed.

Lemma loops_learn items s w s' w' :
  slackOutput config = Some items →
  forOf (forSlack (bodyOf f) env config) items s w = (Done s', w') →
  ∀ g, g ∈ allContainers config → known vid g s'.
Proof.
  intros Hi Hrun g Hg.
  assert (∀ slack s0 w0 s1 w1,
    forSlack (bodyOf f) env config slack s0 w0 = (Done s1, w1) →
    (∀ g, g ∈ default [] (gtmContainers slack) → known vid g s1) ∧
    ∀ slack', (∀ g, g ∈ default [] (gtmContainers slack') → known vid g s0) →
              (∀ g, g ∈ default [] (gtmContainers slack') → known vid g s1))
    as Hstep.
  { intros slack s0 w0 s1 w1 E.
    destruct (forSlack_learns _ _ _ _ _ E) as [H1 H2]. split; [done|].
    intros slack' Hk g' Hg'. by apply H2, Hk. }
  destruct (forOf_done _ _ Hstep _ _ _ _ _ Hrun) as [Hall _].
  unfold allContainers in Hg. rewrite Hi in Hg. simpl in Hg.
  apply elem_of_concat in Hg as (cs & Hg & Hcs).
  apply list_elem_of_fmap in Hcs as (slack & -> & Hs).
  by apply (Hall slack).
Qed.
End Stable.

(** ** The phases of a run *)

Lemma runOf_eq f : runOf f = getGtmInfoWith (bodyOf f).
Proof. by destruct f. Qed.

Lemma trackedBody_bodyOf env f : trackedBody env (bodyOf f).
Proof.
  intros config url a c s. destruct f;
    [apply tracked_IndexJs_containerBody | apply tracked_Part000_containerBody].
Qed.

(** Loading never throws; it yields the document of the bucket or, failing
    that, the empty state. *)
Lemma loadState_result env b f w :
  ∃ s w', loadState env b f w = (Done s, w') ∧
    sendsOf (trace w') = sendsOf (trace w) ∧
    storage w' = storage w ∧
    (s = ∅ ∨ ∃ k, objectKey b f = Some k ∧ storage w !! k = Some (Doc s)).
Proof.
  unfold loadState, tryCatch, downloadState, bind, consoleLog, emit, ret. simpl.
  destruct (objectKey b f) as [[b' f']|]; [destruct (downloadOk env)|];
    [destruct (storage w !! (b', f')) as [[|state]|] eqn:E| |]; simpl;
    eexists _, _; (split; [reflexivity|]); simpl;
    rewrite ?sendsOf_app; simpl; rewrite ?app_nil_r;
    (split_and!; try done); eauto.
Qed.

Lemma checkAll_eval body env config g w :
  gcs config = Some g →
  ∃ s w', sendsOf (trace w') = sendsOf (trace w) ∧
    storage w' = storage w ∧
    (s = ∅ ∨ ∃ k, objectKey (bucketName g) (fileName g) = Some k ∧
                  storage w !! k = Some (Doc s)) ∧
    checkAll body env config w = checkContainers body env config g s w'.
Proof.
  intros Hg. unfold checkAll. unfold bind at 1. unfold consoleLog, emit.
  unfold bind at 1. rewrite Hg. simpl. unfold bind at 1.
  destruct (loadState_result env (bucketName g) (fileName g)
              (advance [ConsoleLog "Validation successful."] 0 0 0 w))
    as (s & w' & -> & Hs & Hst & Hdoc).
  exists s, w'. split_and!; try done.
  simpl in Hs. by rewrite sendsOf_app, app_nil_r in Hs.
Qed.

Lemma checkContainers_eval body env config g s w :
  checkContainers body env config g s w =
  if clientOk env then
    match slackOutput config with
    | Some items =>
        match forOf (forSlack body env config) items s
                (advance [GetClient] 0 0 0 w) with
        | (Done s', w') => saveState env (bucketName g) (fileName g) s' w'
        | (Threw e, w') => (Threw e, w')
        end
    | None => (Threw TypeError, advance [GetClient] 0 0 0 w)
    end
  else (Threw AuthError, advance [GetClient] 0 0 0 w).
Proof.
  unfold checkContainers, getClient, bind, emit, required, ret, throw.
  destruct (clientOk env); [|done]. by destruct (slackOutput config).
Qed.

Lemma saveState_sends env b f s w :
  sendsOf (trace (saveState env b f s w).2) = sendsOf (trace w).
Proof.
  unfold saveState, bind, consoleLog, emit.
  destruct (objectKey b f) as [[b' f']|]; [destruct (saveOk env)|]; simpl;
    rewrite ?sendsOf_app; simpl; by rewrite ?app_nil_r.
Qed.

Lemma saveState_done env b f s w w' :
  saveState env b f s w = (Done tt, w') →
  ∃ k, objectKey b f = Some k ∧ storage w' !! k = Some (Doc s).
Proof.
  unfold saveState, bind, consoleLog, emit.
  destruct (objectKey b f) as [[b' f']|]; [destruct (saveOk env)|]; simpl;
    intros [= <-]. exists (b', f'). split; [done|]. simpl. apply lookup_insert_eq.
Qed.

Lemma agrees_empty vid config : agrees vid config ∅.
Proof. intros g _ r. unfold recordAt. by rewrite lookup_empty. Qed.

(** A run that returns on an accepted configuration leaves in the bucket a
    state that knows the live version of every configured container. *)
Lemma first_run_learns f vid env config w w' :
  stableRemote vid env →
  error (validateConfig config) = false →
  getGtmInfoWith (bodyOf f) env config w = (Done tt, w') →
  ∃ g k s, gcs config = Some g ∧
    objectKey (bucketName g) (fileName g) = Some k ∧
    storage w' !! k = Some (Doc s) ∧
    agrees vid config s.
Proof.
  intros Hst He. rewrite getGtmInfoWith_accepted by done.
  destruct (gcs config) as [g|] eqn:Hg; [|by unfold checkAll, bind; rewrite Hg].
  destruct (checkAll_eval (bodyOf f) env config g
              (advance [ConsoleLog "Validating config.json"] 0 0 0 w) Hg)
    as (s0 & w0 & _ & _ & _ & ->).
  rewrite checkContainers_eval.
  destruct (clientOk env); [|done].
  destruct (slackOutput config) as [items|] eqn:Hi; [|done].
  destruct (forOf _ items s0 _) as [[s1|e] w1] eqn:Hloops; [|done].
  intros (k & Hk & Hdoc)%saveState_done.
  exists g, k, s1. split_and!; try done.
  intros c Hc. apply known_consistent. by eapply loops_learn.
Qed.

(** A run that starts from a state agreeing with the remote sends nothing. *)
Lemma agreeing_run_is_silent f vid env config g s w :
  stableRemote vid env →
  agrees vid config s →
  sendsOf (trace (checkContainers (bodyOf f) env config g s w).2) =
  sendsOf (trace w).
Proof.
  intros Hst Ha. rewrite checkContainers_eval.
  assert (sendsOf (trace (advance [GetClient] 0 0 0 w)) = sendsOf (trace w)) as Hw.
  { simpl. by rewrite sendsOf_app, app_nil_r. }
  destruct (clientOk env); [|done].
  destruct (slackOutput config) as [items|] eqn:Hi; [|done].
  pose proof (loops_agree vid env config f Hst items s _ _ Hi Ha Hw) as Hl.
  destruct (forOf _ items s _) as [[s1|e] w1]; simpl in Hl; [|done].
  by rewrite saveState_sends.
Qed.

(** * A run on the empty state *)


Section Fresh.
Context (env : Env) (config : Config) (f : File).


End Fresh.

(** * The two files side by side *)

Lemma append_assoc (s1 s2 s3 : string) : (s1 +:+ s2) +:+ s3 = s1 +:+ (s2 +:+ s3).
Proof.
  induction s1 as [|ch s1 IH]; [done|].
  change (String ch ((s1 +:+ s2) +:+ s3) = String ch (s1 +:+ (s2 +:+ s3))).
  by rewrite IH.
Qed.

Lemma withPeriod_attachmentOf u now d pretty :
  withPeriod (u, attachmentOf now d (textOf pretty " ago)")) =
  (u, attachmentOf now d (textOf pretty " ago).")).
Proof.
  unfold withPeriod, attachmentOf, textOf. cbn [fst snd fallback color pretext
    author_name title title_link text mrkdwn_in footer ts].
  by rewrite !append_assoc.
Qed.

Lemma related_refl t0 w : trace w = t0 → related t0 w w.
Proof.
  intros <-. split_and!; try done. exists [], []. by rewrite app_nil_r.
Qed.

(** Both sides move on by the same counters and by events that show the
    same fetches, writes and notifications. *)
Lemma related_advance t0 wA wB eA eB c l s :
  related t0 wA wB →
  livesOf eA = livesOf eB →
  savesOf eA = savesOf eB →
  sendsOf eB = withPeriod <$> sendsOf eA →
  related t0 (advance eA c l s wA) (advance eB c l s wB).
Proof.
  intros (Hc & Hl & Hs & Hw & Hst & tA & tB & HtA & HtB & Hlv & Hsv & Hsd) H1 H2 H3.
  unfold related. simpl. rewrite Hc, Hl, Hs, Hw, Hst. split_and!; try done.
  exists (tA ++ eA), (tB ++ eB).
  rewrite HtA, HtB, !livesOf_app, !savesOf_app, !sendsOf_app, fmap_app, <- !app_assoc.
  by rewrite Hlv, Hsv, Hsd, H1, H2, H3.
Qed.

Lemma related_same t0 wA wB evs c l s :
  related t0 wA wB → sendsOf evs = [] →
  related t0 (advance evs c l s wA) (advance evs c l s wB).
Proof. intros HR Hs. apply related_advance; try done. by rewrite Hs. Qed.

Lemma savesOf_logsOf (config : Config) (msgs : list string) :
  savesOf (logsOf config msgs) = [].
Proof.
  unfold logsOf. destruct (verboseLogging config); [|done].
  by induction msgs.
Qed.

(** The two decisions coincide on a well-formed state. *)
Lemma notifies_agree s a c d :
  wellFormedState s →
  notifiesPart000 (recordAt s a c) d = notifiesIndexJs (recordAt s a c) d.
Proof.
  intros Hwf. destruct (recordAt s a c) as [r|] eqn:E; [|done].
  simpl. by rewrite (Hwf a c r E).
Qed.

Lemma wellFormedState_setRecord s a c d t :
  wellFormedState s → liveVersionId d ≠ "" →
  wellFormedState (setRecord s a c (checkedRecord d t)).
Proof.
  intros Hwf Hne a' c' r.
  destruct (decide ((a, c) = (a', c'))) as [[= <- <-]|Hd].
  - rewrite recordAt_setRecord. intros [= <-]. by apply truthyStr_Some.
  - rewrite recordAt_setRecord_ne by done. apply Hwf.
Qed.

Lemma wellFormedState_empty : wellFormedState ∅.
Proof. intros a c r. unfold recordAt. by rewrite lookup_empty. Qed.

Lemma agreeing_threw {A} t0 (I : A → Prop) e wA wB :
  related t0 wA wB → agreeing t0 I (Threw e, wA) (Threw e, wB).
Proof. intros HR. split_and!; try done. Qed.

Lemma agreeing_done {A} t0 (I : A → Prop) a wA wB :
  related t0 wA wB → I a → agreeing t0 I (Done a, wA) (Done a, wB).
Proof. intros HR HI. split_and!; try done. by intros ? [= <-]. Qed.

(** [sendSlackMessage] of the two files, from related worlds. *)
Lemma sendSlackMessage_agree t0 env lc d url wA wB :
  related t0 wA wB →
  agreeing t0 (fun _ => True)
    (IndexJs.sendSlackMessage env lc d url wA)
    (Part000.sendSlackMessage env lc d url wB).
Proof.
  intros HR. pose proof HR as (Hc & Hl & Hs & Hw & Hst & _).
  unfold IndexJs.sendSlackMessage, Part000.sendSlackMessage.
  rewrite !sendSlackMessageWith_eval. cbv zeta. rewrite <- Hc, <- Hw, <- Hs.
  destruct url as [u|]; [|by apply agreeing_threw, related_same].
  case_decide; [|by apply agreeing_threw, related_same].
  destruct (prettyMs env _) as [pretty|]; [|by apply agreeing_threw, related_same].
  assert (related t0
    (advance [Send u (attachmentOf (clock env (clockReads wA)) d
                        (textOf pretty " ago)"))] 1 0 1 wA)
    (advance [Send u (attachmentOf (clock env (clockReads wA)) d
                        (textOf pretty " ago)."))] 1 0 1 wB)) as HR'.
  { apply related_advance; try done. simpl. by rewrite withPeriod_attachmentOf. }
  destruct (deliver env (sendCalls wA) u);
    [by apply agreeing_done | by apply agreeing_threw].
Qed.

(** The loop bodies of the two files, from related worlds and a well-formed
    state. *)
Lemma containerBody_agree t0 env config url a c s wA wB :
  wellFormedRemote env → wellFormedState s → related t0 wA wB →
  agreeing t0 wellFormedState
    (IndexJs.containerBody env config url a c s wA)
    (Part000.containerBody env config url a c s wB).
Proof.
  intros Hrem Hwf HR. pose proof HR as (Hc & Hl & Hs & Hw & Hst & _).
  rewrite IndexJs_containerBody_eval, Part000_containerBody_eval.
  rewrite <- Hl, <- Hc.
  destruct (live env (liveCalls wA) (parentOf a c)) as [d|] eqn:Hlive.
  - pose proof (Hrem _ _ _ Hlive) as Hne. rewrite notifies_agree by done.
    destruct (notifiesIndexJs (recordAt s a c) d).
    + assert (related t0
        (advance (Live (parentOf a c) :: logsOf config [changedMsg a c]) 0 1 0 wA)
        (advance (Live (parentOf a c) :: logsOf config [changedMsg a c]) 0 1 0 wB))
        as HR1.
      { apply related_same; [done|]. simpl. apply sendsOf_logsOf. }
      destruct (sendSlackMessage_agree t0 env (recordAt s a c ≫= lastChecked) d url
                  _ _ HR1) as (Ho & HR2 & _).
      destruct (IndexJs.sendSlackMessage _ _ _ _ _) as [oA wA'].
      destruct (Part000.sendSlackMessage _ _ _ _ _) as [oB wB'].
      simpl in Ho, HR2. subst oB. destruct oA as [[]|e]; simpl.
      * pose proof HR2 as (Hc2 & _). rewrite <- Hc2.
        apply agreeing_done; [by apply related_same|].
        by apply wellFormedState_setRecord.
      * by apply agreeing_threw.
    + apply agreeing_done; [|by apply wellFormedState_setRecord].
      apply related_advance; try done; simpl;
        by rewrite ?livesOf_logsOf, ?savesOf_logsOf, ?sendsOf_logsOf.
  - apply agreeing_threw. by apply related_same.
Qed.

Lemma forOf_agree {A} t0 (bodyA bodyB : A → GtmState → Eff GtmState) :
  (∀ x s wA wB, wellFormedState s → related t0 wA wB →
     agreeing t0 wellFormedState (bodyA x s wA) (bodyB x s wB)) →
  ∀ items s wA wB, wellFormedState s → related t0 wA wB →
    agreeing t0 wellFormedState (forOf bodyA items s wA) (forOf bodyB items s wB).
Proof.
  intros Hb. induction items as [|x items IH]; intros s wA wB Hwf HR; simpl.
  - by apply agreeing_done.
  - unfold bind. destruct (Hb x s wA wB Hwf HR) as (Ho & HR1 & HI).
    destruct (bodyA x s wA) as [oA wA1], (bodyB x s wB) as [oB wB1].
    simpl in *. subst oB. destruct oA as [s1|e]; [|by apply agreeing_threw].
    apply IH; [by apply HI|done].
Qed.

Section Agree.
Context (t0 : list Event) (env : Env) (config : Config).
Context (Hrem : wellFormedRemote env).

Lemma forContainer_agree url g s wA wB :
  wellFormedState s → related t0 wA wB →
  agreeing t0 wellFormedState
    (forContainer IndexJs.containerBody env config url g s wA)
    (forContainer Part000.containerBody env config url g s wB).
Proof.
  intros Hwf HR. rewrite !forContainer_eval.
  apply containerBody_agree; try done.
  apply related_same; [done|]. apply sendsOf_logsOf.
Qed.

Lemma related_register u wA wB :
  related t0 wA wB →
  related t0
    {| trace := trace wA; clockReads := clockReads wA; liveCalls := liveCalls wA;
       sendCalls := sendCalls wA; webhooks := {[u]} ∪ webhooks wA;
       storage := storage wA |}
    {| trace := trace wB; clockReads := clockReads wB; liveCalls := liveCalls wB;
       sendCalls := sendCalls wB; webhooks := {[u]} ∪ webhooks wB;
       storage := storage wB |}.
Proof.
  intros (Hc & Hl & Hs & Hw & Hst & Hev). unfold related. simpl.
  by rewrite Hc, Hl, Hs, Hw, Hst.
Qed.

Lemma forSlack_agree slack s wA wB :
  wellFormedState s → related t0 wA wB →
  agreeing t0 wellFormedState
    (forSlack IndexJs.containerBody env config slack s wA)
    (forSlack Part000.containerBody env config slack s wB).
Proof.
  intros Hwf HR. unfold forSlack.
  assert (related t0
    (advance (logsOf config
       ["Starting operation for webhook URL " +:+ render (slackWebhookUrl slack)])
       0 0 0 wA)
    (advance (logsOf config
       ["Starting operation for webhook URL " +:+ render (slackWebhookUrl slack)])
       0 0 0 wB)) as HR1.
  { apply related_same; [done|]. apply sendsOf_logsOf. }
  destruct (slackWebhookUrl slack) as [u|], (gtmContainers slack) as [cs|];
    unfold bind, registerWebhook, required, ret, throw; rewrite !log_eval;
    cbv beta iota; try (by apply agreeing_threw).
  - apply forOf_agree; [|done|by apply related_register].
    intros g s0 wA0 wB0. apply forContainer_agree.
  - by apply agreeing_threw, related_register.
Qed.

Lemma saveState_agree b f s wA wB :
  related t0 wA wB →
  agreeing t0 (fun _ => True) (saveState env b f s wA) (saveState env b f s wB).
Proof.
  intros HR. unfold saveState, bind, consoleLog, emit.
  assert (related t0
    (advance [ConsoleLog "Writing new state to Cloud Storage."] 0 0 0 wA)
    (advance [ConsoleLog "Writing new state to Cloud Storage."] 0 0 0 wB)) as HR1.
  { by apply related_same. }
  destruct (objectKey b f) as [[b' f']|]; [|by apply agreeing_threw].
  destruct (saveOk env).
  - apply agreeing_done; [|done].
    destruct HR as (Hc & Hl & Hs & Hw & Hst & tA & tB & HtA & HtB & Hlv & Hsv & Hsd).
    unfold related. simpl. rewrite Hc, Hl, Hs, Hw, Hst. split_and!; try done.
    exists (tA ++ [ConsoleLog "Writing new state to Cloud Storage."; Save b' f' s]),
           (tB ++ [ConsoleLog "Writing new state to Cloud Storage."; Save b' f' s]).
    rewrite HtA, HtB, !livesOf_app, !savesOf_app, !sendsOf_app, fmap_app.
    rewrite <- !app_assoc, Hlv, Hsv, Hsd. done.
  - apply agreeing_threw. rewrite !advance_advance. by apply related_same.
Qed.

Lemma checkContainers_agree g s wA wB :
  wellFormedState s → related t0 wA wB →
  agreeing t0 (fun _ => True)
    (checkContainers IndexJs.containerBody env config g s wA)
    (checkContainers Part000.containerBody env config g s wB).
Proof.
  intros Hwf HR. rewrite !checkContainers_eval.
  assert (related t0 (advance [GetClient] 0 0 0 wA) (advance [GetClient] 0 0 0 wB))
    as HR1 by by apply related_same.
  destruct (clientOk env); [|by apply agreeing_threw].
  destruct (slackOutput config) as [items|]; [|by apply agreeing_threw].
  destruct (forOf_agree t0 (forSlack IndexJs.containerBody env config)
              (forSlack Part000.containerBody env config))
    with (items := items) (s := s) (wA := advance [GetClient] 0 0 0 wA)
         (wB := advance [GetClient] 0 0 0 wB) as (Ho & HR2 & _); try done.
  { intros slack s0 wA0 wB0. apply forSlack_agree. }
  destruct (forOf _ items s (advance _ _ _ _ wA)) as [oA wA1].
  destruct (forOf _ items s (advance _ _ _ _ wB)) as [oB wB1].
  simpl in *. subst oB. destruct oA as [s1|e]; [|by apply agreeing_threw].
  by apply saveState_agree.
Qed.

Lemma loadState_agree b f wA wB :
  wellFormedStore wA → related t0 wA wB →
  agreeing t0 wellFormedState (loadState env b f wA) (loadState env b f wB).
Proof.
  intros Hstore HR. pose proof HR as (_ & _ & _ & _ & Hst & _).
  unfold loadState, tryCatch, downloadState, bind, consoleLog, emit, ret.
  simpl. rewrite <- Hst.
  destruct (objectKey b f) as [[b' f']|]; [destruct (downloadOk env)|];
    [destruct (storage wA !! (b', f')) as [[|state]|] eqn:E| |];
    rewrite !advance_advance;
    (apply agreeing_done;
      [by apply related_same
      |first [apply wellFormedState_empty | by eapply Hstore]]).
Qed.
End Agree.

(** * The per-container decision *)

(** C3: when the stored version id equals the fetched one, the pass sends
    no notification and sets [lastChecked] to the time of the pass, in both
    files. *)
Theorem unchanged_version_is_silent env config url a c s w r d :
  recordAt s a c = Some r →
  containerVersionId r = Some (liveVersionId d) →
  live env (liveCalls w) (parentOf a c) = Some d →
  inBothBodies (silentPass env config url a c s w d).
Proof.
  intros Hr Hv Hl. split; unfold silentPass;
    [rewrite IndexJs_containerBody_eval | rewrite Part000_containerBody_eval];
    rewrite Hl, Hr; simpl; rewrite Hv;
    rewrite bool_decide_eq_false_2 by (intros Hn; by apply Hn);
    rewrite ?andb_false_r;
    (eexists _, _, _; split; [reflexivity|]; split; [reflexivity|]);
    simpl; rewrite sendsOf_logsOf, recordAt_setRecord; done.
Qed.

Lemma unchanged_version_is_silent_witness :
  recordAt (sampleState {| containerVersionId := Some "5"; lastChecked := Some 7%Z |})
    "1" "2" = Some {| containerVersionId := Some "5"; lastChecked := Some 7%Z |} ∧
  inBothBodies
    (silentPass (sampleEnv "5") sampleConfig (Some sampleUrl) "1" "2"
       (sampleState {| containerVersionId := Some "5"; lastChecked := Some 7%Z |})
       hookedWorld (sampleData "5")).
Proof.
  split; [reflexivity|].
  apply (unchanged_version_is_silent (sampleEnv "5") sampleConfig (Some sampleUrl)
           "1" "2" _ hookedWorld
           {| containerVersionId := Some "5"; lastChecked := Some 7%Z |}
           (sampleData "5")); reflexivity.
Defined.

(** C2, as stated, fails in [index.js]: an entry that exists but carries no
    [containerVersionId] is compared with the fetched id, differs from it,
    and a notification goes out. *)
Lemma first_observation_counterexample :
  let prior := {| containerVersionId := None; lastChecked := Some 7%Z |} in
  let pass :=
    IndexJs.containerBody (sampleEnv "1") sampleConfig (Some sampleUrl) "1" "2"
      (sampleState prior) hookedWorld in
  recordAt (sampleState prior) "1" "2" = Some prior ∧
  containerVersionId prior = None ∧
  live (sampleEnv "1") 0 (parentOf "1" "2") = Some (sampleData "1") ∧
  sendsOf (trace pass.2) =
    [(sampleUrl,
      attachmentOf 1600000000000 (sampleData "1") (textOf "1m" " ago)"))] ∧
  ¬ silentPass (sampleEnv "1") sampleConfig (Some sampleUrl) "1" "2"
      (sampleState prior) hookedWorld (sampleData "1") IndexJs.containerBody.
Proof.
  cbv zeta.
  assert (sendsOf (trace (IndexJs.containerBody (sampleEnv "1") sampleConfig
            (Some sampleUrl) "1" "2"
            (sampleState {| containerVersionId := None; lastChecked := Some 7%Z |})
            hookedWorld).2) =
          [(sampleUrl,
            attachmentOf 1600000000000 (sampleData "1") (textOf "1m" " ago)"))])
    as Hsent by reflexivity.
  split_and!; try reflexivity.
  intros (s' & w' & evs & Hrun & Ht & Hs & _).
  rewrite Hrun in Hsent. simpl in Hsent.
  rewrite Ht, sendsOf_app, Hs in Hsent. discriminate Hsent.
Qed.

(** C2, amended: a container that the file takes for unseen (no entry; in
    [part_000] also an entry with an absent or empty [containerVersionId])
    is passed without a notification, and its record then holds the fetched
    version id and the time of the pass. *)
Theorem first_observation_is_silent f env config url a c s w d :
  firstObservation f (recordAt s a c) →
  live env (liveCalls w) (parentOf a c) = Some d →
  silentPass env config url a c s w d (bodyOf f).
Proof.
  intros Hf Hl.
  destruct (firstObservation_eval f env config url a c s w d Hf Hl) as [msgs Hrun].
  unfold silentPass. rewrite Hrun.
  eexists _, _, _. split; [reflexivity|]. split; [reflexivity|].
  cbn [sendsOf omap]. split; [apply sendsOf_logsOf|]. apply recordAt_setRecord.
Qed.

Lemma first_observation_is_silent_witness :
  (firstObservation IndexJsFile (recordAt ∅ "1" "2") ∧
   silentPass (sampleEnv "1") sampleConfig (Some sampleUrl) "1" "2" ∅ hookedWorld
     (sampleData "1") (bodyOf IndexJsFile)) ∧
  (firstObservation Part000File
     (recordAt (sampleState {| containerVersionId := None; lastChecked := Some 7%Z |})
        "1" "2") ∧
   silentPass (sampleEnv "1") sampleConfig (Some sampleUrl) "1" "2"
     (sampleState {| containerVersionId := None; lastChecked := Some 7%Z |})
     hookedWorld (sampleData "1") (bodyOf Part000File)).
Proof.
  split; (split; [reflexivity|]).
  - apply (first_observation_is_silent IndexJsFile (sampleEnv "1")); reflexivity.
  - apply (first_observation_is_silent Part000File (sampleEnv "1")); reflexivity.
Defined.

(** C1, as stated, fails in [part_000]: a stored [containerVersionId] that is
    the empty string differs from the fetched id, but is falsy, so the
    container counts as not polled before and nothing is sent. *)
Lemma changed_version_counterexample :
  let prior := {| containerVersionId := Some ""; lastChecked := Some 7%Z |} in
  let pass :=
    Part000.containerBody (sampleEnv "6") sampleConfig (Some sampleUrl) "1" "2"
      (sampleState prior) hookedWorld in
  recordAt (sampleState prior) "1" "2" = Some prior ∧
  containerVersionId prior ≠ Some (liveVersionId (sampleData "6")) ∧
  live (sampleEnv "6") 0 (parentOf "1" "2") = Some (sampleData "6") ∧
  sendsOf (trace pass.2) = [] ∧
  ¬ notifyingPass (sampleEnv "6") sampleConfig sampleUrl "1" "2"
      (sampleState prior) hookedWorld (sampleData "6") Part000.containerBody.
Proof.
  cbv zeta.
  assert (sendsOf (trace (Part000.containerBody (sampleEnv "6") sampleConfig
            (Some sampleUrl) "1" "2"
            (sampleState {| containerVersionId := Some ""; lastChecked := Some 7%Z |})
            hookedWorld).2) = []) as Hsent by reflexivity.
  split_and!; try reflexivity; try discriminate.
  intros (s' & w' & evs & message & r' & Hrun & Ht & Hs & _).
  rewrite Hrun in Hsent. simpl in Hsent.
  rewrite Ht, sendsOf_app, Hs in Hsent. discriminate Hsent.
Qed.

(** C1, amended: when the stored version id differs from the fetched one
    (and, in [part_000], is not the empty string), and the webhook is
    registered and pretty-ms and the webhook accept the call, the pass sends
    exactly one notification, naming the fetched version, and the stored
    version id becomes the fetched one. *)
Theorem changed_version_notifies_once f env config url a c s w r v d pretty :
  recordAt s a c = Some r →
  containerVersionId r = Some v →
  polledBefore f v →
  v ≠ liveVersionId d →
  live env (liveCalls w) (parentOf a c) = Some d →
  url ∈ webhooks w →
  prettyMs env ((fun l => clock env (clockReads w) - l)%Z <$> lastChecked r)
    = Some pretty →
  deliver env (sendCalls w) url = true →
  notifyingPass env config url a c s w d (bodyOf f).
Proof.
  intros Hr Hv Hne Hnv Hl Hu Hp Hd.
  destruct r as [stored checked]. simpl in Hv, Hp. subst stored.
  assert (Some v ≠ Some (liveVersionId d)) as Hdiff by congruence.
  unfold notifyingPass. destruct f; simpl in Hne |- *;
    [rewrite IndexJs_containerBody_eval | rewrite Part000_containerBody_eval];
    rewrite Hl, Hr; simpl;
    rewrite ?(proj2 (String.eqb_neq v "") Hne);
    rewrite (bool_decide_eq_true_2 _ Hdiff); simpl;
    [unfold IndexJs.sendSlackMessage | unfold Part000.sendSlackMessage];
    rewrite sendSlackMessageWith_eval; simpl;
    (rewrite decide_True by done); rewrite Hp, Hd; simpl;
    rewrite !advance_advance;
    (eexists _, _, _, _, _; split; [reflexivity|]; split; [reflexivity|]);
    simpl; rewrite sendsOf_app, sendsOf_logsOf, recordAt_setRecord;
    split_and!; reflexivity.
Qed.

Lemma changed_version_notifies_once_witness :
  let prior := {| containerVersionId := Some "5"; lastChecked := Some 7%Z |} in
  recordAt (sampleState prior) "1" "2" = Some prior ∧
  polledBefore Part000File "5" ∧
  "5" ≠ liveVersionId (sampleData "6") ∧
  sampleUrl ∈ webhooks hookedWorld ∧
  notifyingPass (sampleEnv "6") sampleConfig sampleUrl "1" "2"
    (sampleState prior) hookedWorld (sampleData "6") (bodyOf IndexJsFile) ∧
  notifyingPass (sampleEnv "6") sampleConfig sampleUrl "1" "2"
    (sampleState prior) hookedWorld (sampleData "6") (bodyOf Part000File).
Proof.
  cbv zeta.
  split_and!; [reflexivity|discriminate|discriminate|reflexivity| |].
  - apply (changed_version_notifies_once IndexJsFile (sampleEnv "6") sampleConfig
             sampleUrl "1" "2" _ hookedWorld
             {| containerVersionId := Some "5"; lastChecked := Some 7%Z |}
             "5" (sampleData "6") "1m");
      try reflexivity; try discriminate.
  - apply (changed_version_notifies_once Part000File (sampleEnv "6") sampleConfig
             sampleUrl "1" "2" _ hookedWorld
             {| containerVersionId := Some "5"; lastChecked := Some 7%Z |}
             "5" (sampleData "6") "1m");
      try reflexivity; try discriminate.
Defined.

(** * Configuration *)

(** C5: [validateConfig] reports an error exactly when one of the six
    failure causes holds; the message is the concatenation of the codes of
    the causes that hold, the six codes differ, and the message tells which
    causes held. *)
Theorem validateConfig_reports_causes (config : Config) :
  (error (validateConfig config) = true ↔ ∃ c, holds config c) ∧
  (∀ c, holdsb config c = true ↔ holds config c) ∧
  errorMessage (validateConfig config) = messageOf (holdsb config) ∧
  NoDup (code <$> causes) ∧
  (∀ v v', messageOf v = messageOf v' → ∀ c, v c = v' c).
Proof.
  split_and!.
  - apply validateConfig_error_true.
  - apply holdsb_spec.
  - apply validateConfig_message.
  - apply (bool_decide_unpack _). by vm_compute.
  - apply messageOf_inj.
Qed.

(** C4, as stated, fails: an empty array is truthy, so an entry whose
    [gtmContainers] is the empty list passes the filter of line 56 and the
    configuration is accepted. *)
Lemma empty_container_list_counterexample :
  slackOutput emptyListConfig =
    Some [{| slackWebhookUrl := Some sampleUrl; gtmContainers := Some [] |}] ∧
  error (validateConfig emptyListConfig) = false.
Proof. split; reflexivity. Qed.

(** C4, amended: a configuration with a [slackOutput] entry that has no
    [gtmContainers] at all is rejected with [error = true], and the run
    stops at the gate, before any access to the bucket or remote call. *)
Theorem missing_container_list_rejected config items entry env w :
  slackOutput config = Some items →
  entry ∈ items →
  gtmContainers entry = None →
  error (validateConfig config) = true ∧ inBothFiles (refused env config w).
Proof.
  intros Hs Hin Hnone.
  assert (error (validateConfig config) = true) as He.
  { apply validateConfig_error_true. exists InvalidItem. simpl.
    exists items, entry. unfold lacksField. auto. }
  split; [done|].
  split; unfold refused, IndexJs.getGtmInfo, Part000.getGtmInfo;
    rewrite getGtmInfoWith_refused by done;
    eexists; split_and!; reflexivity.
Qed.

Lemma missing_container_list_rejected_witness :
  slackOutput noListConfig =
    Some [{| slackWebhookUrl := Some sampleUrl; gtmContainers := None |}] ∧
  error (validateConfig noListConfig) = true ∧
  inBothFiles (refused (sampleEnv "1") noListConfig emptyWorld).
Proof.
  split; [reflexivity|].
  apply (missing_container_list_rejected noListConfig
           [{| slackWebhookUrl := Some sampleUrl; gtmContainers := None |}]
           {| slackWebhookUrl := Some sampleUrl; gtmContainers := None |}
           (sampleEnv "1") emptyWorld);
    [reflexivity|apply list_elem_of_here|reflexivity].
Defined.

(** C6: on a configuration that [validateConfig] refuses, the run logs the
    error message and returns; it reads and writes no state, fetches no
    version, sends no notification, and the bucket is as before. *)
Theorem invalid_config_aborts env config w :
  error (validateConfig config) = true → inBothFiles (refused env config w).
Proof.
  intros He.
  split; unfold refused, IndexJs.getGtmInfo, Part000.getGtmInfo;
    rewrite getGtmInfoWith_refused by done;
    (eexists; split; [reflexivity|]);
    (split; [reflexivity|]); split_and!; reflexivity.
Qed.

Lemma invalid_config_aborts_witness :
  error (validateConfig noListConfig) = true ∧
  inBothFiles (refused (sampleEnv "1") noListConfig (worldWith Garbage)).
Proof.
  split; [reflexivity|].
  apply (invalid_config_aborts (sampleEnv "1") noListConfig (worldWith Garbage)).
  reflexivity.
Defined.

(** * Whole runs *)

(** C8: in both files a run fetches the containers in the configured order
    (its fetches are a prefix of the configured ones, all of them when it
    returns on an accepted configuration).  A fetch or a notification that
    fails is the last thing the run does: no later container is processed,
    the run throws, the state is never written and the bucket keeps what the
    previous run left. *)
Theorem failure_stops_the_run env config w :
  inBothFiles (inOrderUntilFailure env config w).
Proof.
  split; apply inOrderUntilFailure_with; intros ? ? ? ? ?;
    [apply tracked_IndexJs_containerBody | apply tracked_Part000_containerBody].
Qed.

(** C9: when a run has returned, a second run started on what it left, with
    the remote reporting the same version id for each container throughout
    both runs, sends no notification, in either file. *)
Theorem second_run_is_silent f vid env1 env2 config w0 w1 :
  stableRemote vid env1 →
  stableRemote vid env2 →
  runOf f env1 config w0 = (Done tt, w1) →
  ∃ evs, trace (runOf f env2 config w1).2 = trace w1 ++ evs ∧ sendsOf evs = [].
Proof.
  intros Hst1 Hst2. rewrite runOf_eq. intros Hrun1.
  destruct (inOrderUntilFailure_with (bodyOf f) env2 config w1
              (trackedBody_bodyOf env2 f)) as (evs & Ht & _).
  exists evs. split; [done|].
  enough (sendsOf (trace (getGtmInfoWith (bodyOf f) env2 config w1).2) =
          sendsOf (trace w1)) as Hs.
  { rewrite Ht, sendsOf_app in Hs.
    rewrite <- (app_nil_r (sendsOf (trace w1))) in Hs at 2.
    by apply app_inv_head in Hs. }
  destruct (error (validateConfig config)) eqn:He.
  - rewrite getGtmInfoWith_refused by done. simpl.
    by rewrite sendsOf_app, app_nil_r.
  - destruct (first_run_learns f vid env1 config w0 w1 Hst1 He Hrun1)
      as (g & k & s1 & Hg & Hk & Hdoc & Hagree).
    rewrite getGtmInfoWith_accepted by done.
    destruct (checkAll_eval (bodyOf f) env2 config g
                (advance [ConsoleLog "Validating config.json"] 0 0 0 w1) Hg)
      as (s2 & w2 & Hs2 & _ & Hload & ->).
    rewrite (agreeing_run_is_silent f vid env2 config g s2 w2 Hst2).
    + rewrite Hs2. simpl. by rewrite sendsOf_app, app_nil_r.
    + destruct Hload as [->|(k' & Hk' & Hdoc')]; [apply agrees_empty|].
      simpl in Hdoc'. assert (s2 = s1) as -> by congruence. done.
Qed.

Lemma second_run_is_silent_witness :
  let w0 := worldWith (Doc (sampleState
              {| containerVersionId := Some "5"; lastChecked := Some 7%Z |})) in
  let w1 := (runOf Part000File (sampleEnv "6") sampleConfig w0).2 in
  stableRemote (fun _ => "6") (sampleEnv "6") ∧
  runOf Part000File (sampleEnv "6") sampleConfig w0 = (Done tt, w1) ∧
  length (sendsOf (trace w1)) = 1%nat ∧
  ∃ evs, trace (runOf Part000File (sampleEnv "6") sampleConfig w1).2 = trace w1 ++ evs ∧
         sendsOf evs = [].
Proof.
  cbv zeta.
  assert (stableRemote (fun _ => "6") (sampleEnv "6")) as Hst.
  { intros k parent d [= <-]. reflexivity. }
  split; [exact Hst|]. split; [by vm_compute|]. split; [by vm_compute|].
  apply (second_run_is_silent Part000File (fun _ => "6") (sampleEnv "6")
           (sampleEnv "6") sampleConfig
           (worldWith (Doc (sampleState
              {| containerVersionId := Some "5"; lastChecked := Some 7%Z |}))));
    [exact Hst|exact Hst|by vm_compute].
Defined.

(** * The two files compared *)

(** C10, as stated, fails: the two files word the text of the notification
    differently ([part_000] closes it with a full stop), so on a changed
    version they do not send the same message. *)
Lemma same_notifications_counterexample :
  let w := worldWith (Doc (sampleState
             {| containerVersionId := Some "5"; lastChecked := Some 7%Z |})) in
  (text ∘ snd) <$> sendsOf (trace (IndexJs.getGtmInfo (sampleEnv "6") sampleConfig w).2)
    = ["New published version found since last check (1m ago)"] ∧
  (text ∘ snd) <$> sendsOf (trace (Part000.getGtmInfo (sampleEnv "6") sampleConfig w).2)
    = ["New published version found since last check (1m ago)."] ∧
  sendsOf (trace (IndexJs.getGtmInfo (sampleEnv "6") sampleConfig w).2) ≠
  sendsOf (trace (Part000.getGtmInfo (sampleEnv "6") sampleConfig w).2).
Proof.
  cbv zeta.
  assert ((text ∘ snd) <$> sendsOf (trace (IndexJs.getGtmInfo (sampleEnv "6")
            sampleConfig (worldWith (Doc (sampleState
              {| containerVersionId := Some "5"; lastChecked := Some 7%Z |})))).2)
          = ["New published version found since last check (1m ago)"]) as HA
    by by vm_compute.
  assert ((text ∘ snd) <$> sendsOf (trace (Part000.getGtmInfo (sampleEnv "6")
            sampleConfig (worldWith (Doc (sampleState
              {| containerVersionId := Some "5"; lastChecked := Some 7%Z |})))).2)
          = ["New published version found since last check (1m ago)."]) as HB
    by by vm_compute.
  split; [exact HA|]. split; [exact HB|].
  intros Heq. rewrite Heq, HB in HA. discriminate HA.
Qed.

(** C10, amended: when every stored record carries a non-empty version id
    and the remote never reports an empty one, the two files end with the
    same outcome and the same bucket, make the same fetches and writes, and
    send the same notifications to the same destinations, the text of
    [part_000] having a full stop that [index.js] does not write. *)
Theorem files_agree_up_to_full_stop env config w :
  wellFormedRemote env →
  wellFormedStore w →
  agreeing (trace w) (fun _ => True)
    (IndexJs.getGtmInfo env config w) (Part000.getGtmInfo env config w).
Proof.
  intros Hrem Hstore. unfold IndexJs.getGtmInfo, Part000.getGtmInfo.
  destruct (error (validateConfig config)) eqn:He.
  - rewrite !getGtmInfoWith_refused by done.
    apply agreeing_done; [|done]. apply related_same; [|done].
    by apply related_refl.
  - rewrite !getGtmInfoWith_accepted by done.
    unfold checkAll, bind, consoleLog, emit, required, ret, throw.
    set (w1 := advance [ConsoleLog "Validation successful."] 0 0 0
                 (advance [ConsoleLog "Validating config.json"] 0 0 0 w)).
    assert (related (trace w) w1 w1) as HR1.
    { unfold w1. rewrite advance_advance. apply related_same; [|done].
      by apply related_refl. }
    destruct (gcs config) as [g|]; [|by apply agreeing_threw].
    destruct (loadState_agree (trace w) env (bucketName g) (fileName g) w1 w1)
      as (Ho & HR2 & Hwf); [done|done|].
    destruct (loadState env (bucketName g) (fileName g) w1) as [o w2].
    simpl in *. destruct o as [s|e]; [|by apply agreeing_threw].
    apply checkContainers_agree; auto.
Qed.

Lemma files_agree_up_to_full_stop_witness :
  let w := worldWith (Doc (sampleState
             {| containerVersionId := Some "5"; lastChecked := Some 7%Z |})) in
  wellFormedRemote (sampleEnv "6") ∧
  wellFormedStore w ∧
  agreeing (trace w) (fun _ => True)
    (IndexJs.getGtmInfo (sampleEnv "6") sampleConfig w)
    (Part000.getGtmInfo (sampleEnv "6") sampleConfig w).
Proof.
  cbv zeta.
  assert (wellFormedRemote (sampleEnv "6")) as Hrem.
  { intros k parent d [= <-]. discriminate. }
  assert (wellFormedStore (worldWith (Doc (sampleState
            {| containerVersionId := Some "5"; lastChecked := Some 7%Z |}))))
    as Hstore.
  { intros k s Hk a c r Hr. unfold worldWith in Hk. simpl in Hk.
    apply lookup_singleton_Some in Hk as [_ [= <-]].
    unfold recordAt, sampleState in Hr.
    destruct (decide (a = "1")) as [->|Ha];
      [rewrite lookup_singleton_eq in Hr|by rewrite lookup_singleton_ne in Hr].
    simpl in Hr.
    destruct (decide (c = "2")) as [->|Hc];
      [rewrite lookup_singleton_eq in Hr|by rewrite lookup_singleton_ne in Hr].
    by injection Hr as <-. }
  split; [exact Hrem|]. split; [exact Hstore|].
  apply (files_agree_up_to_full_stop (sampleEnv "6") sampleConfig
           (worldWith (Doc (sampleState
              {| containerVersionId := Some "5"; lastChecked := Some 7%Z |}))));
    [exact Hrem|exact Hstore].
Defined.

(** A run whose second fetch fails: the first container is processed, the
    second is fetched and nothing follows; the run throws and the bucket
    still holds what it held. *)
Example second_fetch_fails :
  let run := Part000.getGtmInfo failingEnv twoContainers (worldWith Garbage) in
  run.1 = Threw ApiError ∧
  livesOf (trace run.2) = ["accounts/1/containers/2"; "accounts/3/containers/4"] ∧
  last (trace run.2) = Some (Live "accounts/3/containers/4") ∧
  savesOf (trace run.2) = [] ∧
  storage run.2 = storage (worldWith Garbage).
Proof.
  cbv zeta. split; [|split; [|split; [|split]]]; vm_compute; reflexivity.
Qed.

(** * Further properties *)

(** ** Container identifiers *)

Lemma append_cons (ch : ascii) (s t : string) :
  String ch s +:+ t = String ch (s +:+ t).
Proof. reflexivity. Qed.

Lemma append_nil (t : string) : "" +:+ t = t.
Proof. reflexivity. Qed.

Lemma split_nonempty (s : string) : split s ≠ [].
Proof.
  induction s as [|ch s IH]; [done|]. simpl.
  destruct (Ascii.eqb ch "_"); [done|]. by destruct (split s).
Qed.

Lemma split_no_separator (s : string) : noUnderscore s → split s = [s].
Proof.
  unfold noUnderscore. induction s as [|ch s IH]; [done|]. simpl.
  destruct (Ascii.eqb ch "_"); [done|]. simpl. intros H. by rewrite IH.
Qed.

Lemma split_separator (a rest : string) :
  noUnderscore a → split (a +:+ String "_" rest) = a :: split rest.
Proof.
  unfold noUnderscore. induction a as [|ch a IH].
  - intros _. rewrite append_nil. reflexivity.
  - rewrite append_cons. simpl.
    destruct (Ascii.eqb ch "_"); [done|]. simpl. intros H. by rewrite IH.
Qed.

(** X1: an identifier written as account id, separator, container id is
    split back into the two ids; the log tag of the pair is such an
    identifier. *)
Theorem splitIds_tag (a c : string) :
  noUnderscore a → noUnderscore c → splitIds (tag a c) = (a, c).
Proof.
  intros Ha Hc. unfold splitIds, tag.
  change ("_" +:+ c) with (String "_" c).
  rewrite (split_separator a c Ha), (split_no_separator c Hc). reflexivity.
Qed.

Lemma splitIds_tag_witness :
  noUnderscore "1234567" ∧ noUnderscore "890" ∧
  splitIds (tag "1234567" "890") = ("1234567", "890").
Proof.
  split; [reflexivity|]. split; [reflexivity|].
  apply (splitIds_tag "1234567" "890"); reflexivity.
Defined.

(** X2: an identifier without a separator leaves the container id
    undefined: the account id is the whole identifier, the state key and
    the request path carry the string [undefined]. *)
Theorem splitIds_without_separator (g : string) :
  noUnderscore g →
  splitIds g = (g, "undefined") ∧
  parentOfContainer g = "accounts/" +:+ g +:+ "/containers/undefined".
Proof.
  intros Hg.
  assert (splitIds g = (g, "undefined")) as Hs.
  { unfold splitIds. rewrite (split_no_separator g Hg). reflexivity. }
  split; [exact Hs|]. unfold parentOfContainer. rewrite Hs. reflexivity.
Qed.

Lemma splitIds_without_separator_witness :
  noUnderscore "1234567" ∧
  splitIds "1234567" = ("1234567", "undefined") ∧
  parentOfContainer "1234567" = "accounts/" +:+ "1234567" +:+ "/containers/undefined".
Proof.
  split; [reflexivity|].
  apply (splitIds_without_separator "1234567"). reflexivity.
Defined.

(** X3: whatever follows a second separator is ignored: the identifier
    addresses the container named by its first two pieces. *)
Theorem splitIds_extra_pieces (a c rest : string) :
  noUnderscore a → noUnderscore c →
  splitIds (tag a c +:+ "_" +:+ rest) = (a, c).
Proof.
  intros Ha Hc. unfold splitIds, tag.
  rewrite !append_assoc.
  change ("_" +:+ c +:+ "_" +:+ rest) with (String "_" (c +:+ String "_" rest)).
  rewrite (split_separator a _ Ha), (split_separator c rest Hc). reflexivity.
Qed.

Lemma splitIds_extra_pieces_witness :
  noUnderscore "1" ∧ noUnderscore "2" ∧
  splitIds (tag "1" "2" +:+ "_" +:+ "staging_eu") = ("1", "2").
Proof.
  split; [reflexivity|]. split; [reflexivity|].
  apply (splitIds_extra_pieces "1" "2" "staging_eu"); reflexivity.
Defined.

(** ** addContainerToState *)

(** X4: [addContainerToState] never throws and touches nothing but the
    state: afterwards the container has an entry, the one it had or an
    empty one, and every other entry is as before. *)
Theorem addContainerToState_adds (s : GtmState) (a c : string) (w : World) :
  ∃ s',
    Part000.addContainerToState s a c w = (Done s', w) ∧
    recordAt s' a c = Some (Part000.orEmpty (recordAt s a c)) ∧
    ∀ a' c', (a, c) ≠ (a', c') → recordAt s' a' c' = recordAt s a' c'.
Proof.
  rewrite addContainerToState_eval. eexists. split; [reflexivity|].
  split; [apply recordAt_setRecord|].
  intros a' c' Hne. by apply recordAt_setRecord_ne.
Qed.

(** X5: adding a container a second time changes nothing. *)
Theorem addContainerToState_idempotent (s s1 : GtmState) (a c : string) (w w1 : World) :
  Part000.addContainerToState s a c w = (Done s1, w1) →
  Part000.addContainerToState s1 a c w1 = (Done s1, w1).
Proof.
  rewrite !addContainerToState_eval. intros [= <- <-].
  rewrite recordAt_setRecord. simpl. by rewrite setRecord_setRecord.
Qed.

Lemma addContainerToState_idempotent_witness :
  let s1 := setRecord ∅ "1" "2" (Part000.orEmpty None) in
  Part000.addContainerToState ∅ "1" "2" emptyWorld = (Done s1, emptyWorld) ∧
  Part000.addContainerToState s1 "1" "2" emptyWorld = (Done s1, emptyWorld).
Proof.
  cbv zeta.
  assert (Part000.addContainerToState ∅ "1" "2" emptyWorld =
          (Done (setRecord ∅ "1" "2" (Part000.orEmpty None)), emptyWorld)) as H.
  { apply addContainerToState_eval. }
  split; [exact H|].
  apply (addContainerToState_idempotent ∅ _ "1" "2" emptyWorld emptyWorld H).
Defined.

(** ** checkPublishedVersionIdAgainstState *)

(** X6: called on a state in which the container has no entry,
    [checkPublishedVersionIdAgainstState] fetches the live version and then
    throws a TypeError; nothing is sent. *)
Theorem check_without_entry_throws env config url s a c w d :
  recordAt s a c = None →
  live env (liveCalls w) (parentOf a c) = Some d →
  Part000.checkPublishedVersionIdAgainstState env config url s a c w =
  (Threw TypeError, advance [Live (parentOf a c)] 0 1 0 w).
Proof.
  intros Hr Hl. unfold Part000.checkPublishedVersionIdAgainstState.
  unfold bind at 1. unfold versionsLive. rewrite Hl.
  unfold bind at 1. unfold getRecord, lookupContainer, bind.
  unfold recordAt in Hr. destruct (s !! a) as [account|]; [|done].
  simpl in Hr. unfold ret. by rewrite Hr.
Qed.

Lemma check_without_entry_throws_witness :
  recordAt ∅ "1" "2" = None ∧
  Part000.checkPublishedVersionIdAgainstState (sampleEnv "6") sampleConfig
    (Some sampleUrl) ∅ "1" "2" hookedWorld =
  (Threw TypeError, advance [Live (parentOf "1" "2")] 0 1 0 hookedWorld).
Proof.
  split; [reflexivity|].
  apply (check_without_entry_throws (sampleEnv "6") sampleConfig (Some sampleUrl)
           ∅ "1" "2" hookedWorld (sampleData "6")); reflexivity.
Defined.

(** X7: when [checkPublishedVersionIdAgainstState] returns, the entry of
    the container holds the fetched version id and the [lastChecked] it had;
    no other entry has changed. *)
Theorem check_stores_version_only env config url s a c w r s' w' :
  recordAt s a c = Some r →
  Part000.checkPublishedVersionIdAgainstState env config url s a c w = (Done s', w') →
  ∃ d, live env (liveCalls w) (parentOf a c) = Some d ∧
    recordAt s' a c =
      Some {| containerVersionId := Some (liveVersionId d);
              lastChecked := lastChecked r |} ∧
    ∀ a' c', (a, c) ≠ (a', c') → recordAt s' a' c' = recordAt s a' c'.
Proof.
  intros Hr. rewrite <- (setRecord_id s a c r Hr) at 1.
  unfold Part000.checkPublishedVersionIdAgainstState.
  unfold bind at 1. unfold versionsLive.
  destruct (live env (liveCalls w) (parentOf a c)) as [d|]; [|done].
  unfold bind at 1. rewrite getRecord_setRecord. unfold bind at 1.
  assert (∀ w1, setVersionId (setRecord s a c r) a c (liveVersionId d) w1 = (Done s', w') →
    ∃ d0, Some d = Some d0 ∧
      recordAt s' a c =
        Some {| containerVersionId := Some (liveVersionId d0);
                lastChecked := lastChecked r |} ∧
      ∀ a' c', (a, c) ≠ (a', c') → recordAt s' a' c' = recordAt s a' c') as Hset.
  { intros w1. rewrite setVersionId_setRecord. intros [= <- <-].
    exists d. split; [done|]. split; [apply recordAt_setRecord|].
    intros a' c' Hne. by apply recordAt_setRecord_ne. }
  destruct (negb (truthyStr (containerVersionId r))).
  - rewrite log_eval. apply Hset.
  - case_decide.
    + unfold bind at 1. rewrite log_eval.
      destruct (Part000.sendSlackMessage _ _ _ _ _) as [[[]|e] w1]; [apply Hset|done].
    + rewrite log_eval. apply Hset.
Qed.

Lemma check_stores_version_only_witness :
  let prior := {| containerVersionId := Some "5"; lastChecked := Some 7%Z |} in
  let pass :=
    Part000.checkPublishedVersionIdAgainstState (sampleEnv "6") sampleConfig
      (Some sampleUrl) (sampleState prior) "1" "2" hookedWorld in
  let s' :=
    setRecord (sampleState prior) "1" "2"
      {| containerVersionId := Some "6"; lastChecked := Some 7%Z |} in
  recordAt (sampleState prior) "1" "2" = Some prior ∧
  pass = (Done s', pass.2) ∧
  ∃ d, live (sampleEnv "6") 0 (parentOf "1" "2") = Some d ∧
    recordAt s' "1" "2" =
      Some {| containerVersionId := Some (liveVersionId d);
              lastChecked := Some 7%Z |} ∧
    ∀ a' c', ("1", "2") ≠ (a', c') →
      recordAt s' a' c' =
      recordAt (sampleState
        {| containerVersionId := Some "5"; lastChecked := Some 7%Z |}) a' c'.
Proof.
  cbv zeta.
  assert (recordAt (sampleState
            {| containerVersionId := Some "5"; lastChecked := Some 7%Z |}) "1" "2" =
          Some {| containerVersionId := Some "5"; lastChecked := Some 7%Z |}) as Hr
    by reflexivity.
  split; [exact Hr|].
  match goal with |- ?run = (Done ?s1, ?w1) ∧ _ =>
    assert (run = (Done s1, w1)) as Hrun by by vm_compute
  end.
  split; [exact Hrun|].
  apply (check_stores_version_only (sampleEnv "6") sampleConfig (Some sampleUrl)
           _ "1" "2" hookedWorld _ _ _ Hr Hrun).
Defined.

(** ** sendSlackMessage *)

Lemma sendSlackMessageOf_eq f :
  sendSlackMessageOf f = sendSlackMessageWith (closingOf f).
Proof. by destruct f. Qed.

(** X8: for a URL that has no entry in [webhooks], [sendSlackMessage] reads
    the clock and throws a TypeError; nothing is sent and pretty-ms is not
    consulted. *)
Theorem sendSlackMessage_unregistered f env lc d url w :
  url ∉ webhooks w →
  sendSlackMessageOf f env lc d (Some url) w = (Threw TypeError, advance [] 1 0 0 w).
Proof.
  intros Hu. rewrite sendSlackMessageOf_eq, sendSlackMessageWith_eval.
  cbv zeta. by rewrite decide_False.
Qed.

Lemma sendSlackMessage_unregistered_witness :
  (sampleUrl ∉ webhooks emptyWorld) ∧
  sendSlackMessageOf IndexJsFile (sampleEnv "6") (Some 7%Z) (sampleData "6")
    (Some sampleUrl) emptyWorld = (Threw TypeError, advance [] 1 0 0 emptyWorld).
Proof.
  assert (sampleUrl ∉ webhooks emptyWorld) as Hu by apply not_elem_of_empty.
  split; [exact Hu|].
  apply (sendSlackMessage_unregistered IndexJsFile (sampleEnv "6") (Some 7%Z)
           (sampleData "6") sampleUrl emptyWorld Hu).
Defined.

(** X9: without a previous [lastChecked] the elapsed time is NaN; when
    pretty-ms rejects it, [sendSlackMessage] throws before the webhook is
    called, so no notification goes out. *)
Theorem sendSlackMessage_without_lastChecked f env d url w :
  prettyMs env None = None →
  ∃ e, sendSlackMessageOf f env None d url w = (Threw e, advance [] 1 0 0 w).
Proof.
  intros Hp. rewrite sendSlackMessageOf_eq, sendSlackMessageWith_eval.
  cbv zeta. simpl. rewrite Hp.
  destruct url as [u|]; [case_decide|]; by eexists.
Qed.

Lemma sendSlackMessage_without_lastChecked_witness :
  prettyMs (sampleEnv "6") None = None ∧
  (∃ e, sendSlackMessageOf Part000File (sampleEnv "6") None (sampleData "6")
          (Some sampleUrl) hookedWorld = (Threw e, advance [] 1 0 0 hookedWorld)).
Proof.
  split; [reflexivity|].
  apply (sendSlackMessage_without_lastChecked Part000File (sampleEnv "6")
           (sampleData "6") (Some sampleUrl) hookedWorld).
  reflexivity.
Defined.

(** X10: the notification of a changed version reports the time elapsed
    since the stored [lastChecked], measured at the clock reading that also
    gives [ts]; it is the only message of the pass, whether or not the
    webhook accepts it.  If it does, [lastChecked] is set from the next
    clock reading; if it does not, the pass throws. *)
Theorem notification_reports_elapsed_time f env config url a c s w r v t0 d pretty :
  recordAt s a c = Some r →
  containerVersionId r = Some v →
  polledBefore f v →
  v ≠ liveVersionId d →
  lastChecked r = Some t0 →
  live env (liveCalls w) (parentOf a c) = Some d →
  url ∈ webhooks w →
  prettyMs env (Some (clock env (clockReads w) - t0)%Z) = Some pretty →
  ∃ evs,
    trace (bodyOf f env config (Some url) a c s w).2 = trace w ++ evs ∧
    sendsOf evs =
      [(url, attachmentOf (clock env (clockReads w)) d
               (textOf pretty (closingOf f)))] ∧
    (deliver env (sendCalls w) url = true →
     ∃ s', (bodyOf f env config (Some url) a c s w).1 = Done s' ∧
           recordAt s' a c =
             Some (checkedRecord d (clock env (S (clockReads w))))) ∧
    (deliver env (sendCalls w) url = false →
     (bodyOf f env config (Some url) a c s w).1 = Threw WebhookError).
Proof.
  intros Hr Hv Hne Hnv Hlc Hl Hu Hp.
  destruct r as [stored checked]. simpl in Hv, Hlc. subst stored checked.
  assert (Some v ≠ Some (liveVersionId d)) as Hdiff by congruence.
  destruct f; simpl in Hne |- *;
    [rewrite IndexJs_containerBody_eval | rewrite Part000_containerBody_eval];
    rewrite Hl, Hr; simpl;
    rewrite ?(proj2 (String.eqb_neq v "") Hne);
    rewrite (bool_decide_eq_true_2 _ Hdiff); simpl;
    [unfold IndexJs.sendSlackMessage | unfold Part000.sendSlackMessage];
    rewrite sendSlackMessageWith_eval; simpl;
    (rewrite decide_True by done); rewrite Hp;
    destruct (deliver env (sendCalls w) url); simpl;
    rewrite ?advance_advance; simpl; rewrite <- ?app_assoc;
    (eexists; split; [reflexivity|]);
    rewrite ?sendsOf_app; simpl; rewrite ?sendsOf_logsOf;
    (split; [reflexivity|]); (split; [|done]); try done;
    intros _; eexists; (split; [reflexivity|]); apply recordAt_setRecord.
Qed.

Lemma notification_reports_elapsed_time_witness :
  let prior := {| containerVersionId := Some "5"; lastChecked := Some 7%Z |} in
  recordAt (sampleState prior) "1" "2" = Some prior ∧
  polledBefore Part000File "5" ∧
  "5" ≠ liveVersionId (sampleData "6") ∧
  sampleUrl ∈ webhooks hookedWorld ∧
  ∃ evs,
    trace (bodyOf Part000File (sampleEnv "6") sampleConfig (Some sampleUrl) "1" "2"
             (sampleState prior) hookedWorld).2 = trace hookedWorld ++ evs ∧
    sendsOf evs =
      [(sampleUrl, attachmentOf 1600000000000 (sampleData "6")
                     (textOf "1m" (closingOf Part000File)))].
Proof.
  cbv zeta.
  split; [reflexivity|]. split; [discriminate|]. split; [discriminate|].
  split; [reflexivity|].
  destruct (notification_reports_elapsed_time Part000File (sampleEnv "6")
              sampleConfig sampleUrl "1" "2"
              (sampleState {| containerVersionId := Some "5"; lastChecked := Some 7%Z |})
              hookedWorld
              {| containerVersionId := Some "5"; lastChecked := Some 7%Z |}
              "5" 7%Z (sampleData "6") "1m")
    as (evs & Ht & Hs & _); try reflexivity; try discriminate.
  exists evs. split; [exact Ht|exact Hs].
Defined.

(** ** What validation guarantees *)

Lemma validItem_true (entry : SlackOutput) :
  validItem entry = true ↔
  ∃ url containers,
    slackWebhookUrl entry = Some url ∧ url ≠ "" ∧
    gtmContainers entry = Some containers.
Proof.
  unfold validItem. destruct entry as [[u|] [cs|]]; simpl.
  - destruct (String.eqb_spec u ""); simpl; split.
    + done.
    + intros (u' & cs' & [= <-] & Hne & _). done.
    + intros _. by exists u, cs.
    + done.
  - rewrite andb_false_r. split; [done|]. by intros (? & ? & _ & _ & [=]).
  - split; [done|]. by intros (? & ? & [=] & _).
  - split; [done|]. by intros (? & ? & [=] & _).
Qed.

(** [validateConfig] reports no error exactly for the complete
    configurations. *)
Lemma validateConfig_complete (config : Config) :
  error (validateConfig config) = false ↔ complete config.
Proof.
  rewrite <- not_true_iff_false, validateConfig_error_true. split.
  - intros Hno.
    assert (∀ c, holdsb config c = false) as Hall.
    { intros c. destruct (holdsb config c) eqn:E; [|done].
      destruct Hno. exists c. by apply holdsb_spec. }
    pose proof (Hall MissingGcs) as H1. pose proof (Hall MissingBucketName) as H2.
    pose proof (Hall MissingFileName) as H3. pose proof (Hall MissingSlackOutput) as H4.
    pose proof (Hall EmptySlackOutput) as H5. pose proof (Hall InvalidItem) as H6.
    simpl in *.
    destruct (gcs config) as [[[b|] [n|]]|] eqn:Eg; try done.
    destruct (slackOutput config) as [items|] eqn:Ei; try done.
    exists {| bucketName := Some b; fileName := Some n |}, b, n, items.
    split_and!; try done.
    + intros ->. done.
    + intros entry Hin. apply validItem_true.
      apply negb_false_iff in H6. rewrite forallb_forall in H6.
      apply H6. by apply list_elem_of_In.
  - intros (g & b & n & items & Hg & Hb & Hn & Hi & Hne & Hall) [c Hc].
    destruct c; simpl in Hc.
    + congruence.
    + destruct Hc as (g' & Hg' & Hb'). congruence.
    + destruct Hc as (g' & Hg' & Hn'). congruence.
    + congruence.
    + congruence.
    + destruct Hc as (items' & entry & Hi' & Hin & Hlack).
      assert (items' = items) as -> by congruence.
      destruct (Hall entry Hin) as (u & cs & Hu & Hne' & Hcs).
      destruct Hlack as [H|[H|H]]; congruence.
Qed.

(** ** The loop body of either file *)

Lemma bodyOf_eval f env config url a c s w :
  bodyOf f env config url a c s w =
  match live env (liveCalls w) (parentOf a c) with
  | None => (Threw ApiError, advance [Live (parentOf a c)] 0 1 0 w)
  | Some d =>
      if notifiesOf f (recordAt s a c) d then
        afterSend env d s a c
          (sendSlackMessageWith (closingOf f) env (recordAt s a c ≫= lastChecked) d url
             (advance (Live (parentOf a c) :: logsOf config [changedMsg a c]) 0 1 0 w))
      else
        (Done (setRecord s a c (checkedRecord d (clock env (clockReads w)))),
         advance (Live (parentOf a c) ::
                  logsOf config (quietLogsOf f (recordAt s a c) a c)) 1 1 0 w)
  end.
Proof.
  destruct f; simpl;
    [apply IndexJs_containerBody_eval | apply Part000_containerBody_eval].
Qed.

(** A record that holds the version the remote reports is not notified
    about, in either file. *)
Lemma notifiesOf_same f r d :
  containerVersionId r = Some (liveVersionId d) → notifiesOf f (Some r) d = false.
Proof.
  intros Hr. destruct f; simpl; rewrite Hr;
    rewrite bool_decide_eq_false_2 by (intros Hn; by apply Hn);
    [done|apply andb_false_r].
Qed.

(** X11: once a pass over a container has returned, another pass over the
    same container is silent as long as the remote reports the same version
    id, whatever the webhook: a container listed under two webhooks notifies
    the first one only. *)
Theorem repeated_pass_is_silent f env config url url' a c s w s' w' w2 d d2 :
  bodyOf f env config url a c s w = (Done s', w') →
  live env (liveCalls w) (parentOf a c) = Some d →
  live env (liveCalls w2) (parentOf a c) = Some d2 →
  liveVersionId d2 = liveVersionId d →
  ∃ msgs,
    bodyOf f env config url' a c s' w2 =
    (Done (setRecord s' a c (checkedRecord d2 (clock env (clockReads w2)))),
     advance (Live (parentOf a c) :: logsOf config msgs) 1 1 0 w2) ∧
    sendsOf (Live (parentOf a c) :: logsOf config msgs) = [].
Proof.
  intros Hrun Hd Hd2 Hv.
  assert (∃ t, s' = setRecord s a c (checkedRecord d t)) as [t ->].
  { rewrite bodyOf_eval, Hd in Hrun.
    destruct (notifiesOf f (recordAt s a c) d).
    - by apply afterSend_done in Hrun.
    - injection Hrun as <- _. eauto. }
  rewrite bodyOf_eval, Hd2, recordAt_setRecord.
  rewrite notifiesOf_same by (simpl; by rewrite Hv).
  eexists. split; [reflexivity|].
  simpl. apply sendsOf_logsOf.
Qed.

Lemma repeated_pass_is_silent_witness :
  let prior := {| containerVersionId := Some "6"; lastChecked := Some 7%Z |} in
  let pass :=
    bodyOf IndexJsFile (sampleEnv "7") sampleConfig (Some sampleUrl) "1" "2"
      (sampleState prior) hookedWorld in
  let s' :=
    setRecord (sampleState prior) "1" "2"
      (checkedRecord (sampleData "7") 1600000001000%Z) in
  pass = (Done s', pass.2) ∧
  ∃ msgs,
    bodyOf IndexJsFile (sampleEnv "7") sampleConfig (Some "https://example.org/other")
      "1" "2" s' pass.2 =
    (Done (setRecord s' "1" "2"
             (checkedRecord (sampleData "7")
                (clock (sampleEnv "7") (clockReads pass.2)))),
     advance (Live (parentOf "1" "2") :: logsOf sampleConfig msgs) 1 1 0 pass.2) ∧
    sendsOf (Live (parentOf "1" "2") :: logsOf sampleConfig msgs) = [].
Proof.
  cbv zeta.
  match goal with |- ?run = (Done ?s1, ?w1) ∧ _ =>
    assert (run = (Done s1, w1)) as Hrun by (vm_compute; reflexivity)
  end.
  split; [exact Hrun|].
  apply (repeated_pass_is_silent IndexJsFile (sampleEnv "7") sampleConfig
           (Some sampleUrl) (Some "https://example.org/other") "1" "2" _ _ _ _
           _ (sampleData "7") (sampleData "7") Hrun eq_refl eq_refl eq_refl).
Defined.

(** ** The phases of a run on a complete configuration *)

Lemma loadState_eval env b n w :
  loadState env (Some b) (Some n) w =
  (Done (loadedState env b n w),
   advance [ConsoleLog "Loading state from Cloud Storage.";
            Download b n;
            ConsoleLog (if loads env b n w
                        then "State file found and loaded successfully."
                        else "State file not found, creating a new one.")] 0 0 0 w).
Proof.
  unfold loadState, tryCatch, downloadState, bind, consoleLog, emit, ret,
    loadedState, loads.
  simpl. destruct (downloadOk env); simpl;
    [destruct (storage w !! (b, n)) as [[|state]|]|]; simpl;
    rewrite !advance_advance; reflexivity.
Qed.

Lemma forSlack_eval body env config slack url containers s w :
  slackWebhookUrl slack = Some url → gtmContainers slack = Some containers →
  forSlack body env config slack s w =
  forOf (forContainer body env config (Some url)) containers s
    (withWebhook url
       (advance (logsOf config ["Starting operation for webhook URL " +:+ url])
          0 0 0 w)).
Proof.
  intros Hu Hc. unfold forSlack. rewrite Hu, Hc.
  unfold bind at 1. rewrite log_eval.
  unfold bind at 1. simpl. reflexivity.
Qed.

Lemma saveState_eval env b n s w :
  saveState env (Some b) (Some n) s w =
  if saveOk env then
    (Done tt,
     {| trace := trace w ++ [ConsoleLog "Writing new state to Cloud Storage.";
                             Save b n s];
        clockReads := clockReads w; liveCalls := liveCalls w;
        sendCalls := sendCalls w; webhooks := webhooks w;
        storage := <[(b, n) := Doc s]> (storage w) |})
  else
    (Threw StorageError,
     advance [ConsoleLog "Writing new state to Cloud Storage."; Save b n s] 0 0 0 w).
Proof.
  unfold saveState, bind, consoleLog, emit. simpl.
  destruct (saveOk env); simpl.
  - by rewrite <- app_assoc.
  - by rewrite advance_advance.
Qed.

Lemma run_eval f env config w g b n items :
  gcs config = Some g → bucketName g = Some b → fileName g = Some n →
  slackOutput config = Some items →
  error (validateConfig config) = false →
  runOf f env config w =
  if clientOk env then
    match forOf (forSlack (bodyOf f) env config) items (loadedState env b n w)
            (advance (preamble env b n w) 0 0 0 w) with
    | (Done s', w') => saveState env (Some b) (Some n) s' w'
    | (Threw e, w') => (Threw e, w')
    end
  else (Threw AuthError, advance (preamble env b n w) 0 0 0 w).
Proof.
  intros Hg Hb Hn Hi Hok.
  rewrite runOf_eq, getGtmInfoWith_accepted by done.
  unfold checkAll. unfold bind at 1. unfold consoleLog, emit.
  unfold bind at 1. rewrite Hg. simpl. unfold bind at 1.
  rewrite Hb, Hn, loadState_eval.
  rewrite checkContainers_eval, Hi, Hb, Hn.
  rewrite !advance_advance. simpl.
  reflexivity.
Qed.

(** X12: on a configuration that passes validation, a failure to obtain
    credentials makes the run throw right after the state was loaded: no
    version is fetched, no notification sent and nothing saved. *)
Theorem failed_authentication_stops_the_run f env config w g b n :
  error (validateConfig config) = false →
  gcs config = Some g → bucketName g = Some b → fileName g = Some n →
  clientOk env = false →
  runOf f env config w = (Threw AuthError, advance (preamble env b n w) 0 0 0 w) ∧
  livesOf (preamble env b n w) = [] ∧
  sendsOf (preamble env b n w) = [] ∧
  savesOf (preamble env b n w) = [] ∧
  storage (runOf f env config w).2 = storage w.
Proof.
  intros Hok Hg Hb Hn Hauth.
  destruct (proj1 (validateConfig_complete config) Hok)
    as (g' & b' & n' & items & Hg' & _ & _ & Hi & _).
  rewrite (run_eval f env config w g b n items) by done.
  rewrite Hauth. done.
Qed.

Lemma failed_authentication_stops_the_run_witness :
  let env :=
    {| clock := clock (sampleEnv "6"); live := live (sampleEnv "6");
       deliver := deliver (sampleEnv "6"); prettyMs := prettyMs (sampleEnv "6");
       downloadOk := true; clientOk := false; saveOk := true |} in
  runOf Part000File env sampleConfig emptyWorld =
    (Threw AuthError,
     advance (preamble env "bucket" "state.json" emptyWorld) 0 0 0 emptyWorld) ∧
  livesOf (preamble env "bucket" "state.json" emptyWorld) = [] ∧
  sendsOf (preamble env "bucket" "state.json" emptyWorld) = [] ∧
  savesOf (preamble env "bucket" "state.json" emptyWorld) = [] ∧
  storage (runOf Part000File env sampleConfig emptyWorld).2 = storage emptyWorld.
Proof.
  cbv zeta.
  apply (failed_authentication_stops_the_run Part000File _ sampleConfig emptyWorld
           {| bucketName := Some "bucket"; fileName := Some "state.json" |}
           "bucket" "state.json");
    [vm_compute; reflexivity|reflexivity..].
Defined.

(** ** What a completed run leaves in the bucket *)

Lemma bodyOf_returns_at f env config url a c s w s' w' :
  bodyOf f env config url a c s w = (Done s', w') →
  ∃ d j,
    live env (liveCalls w) (parentOf a c) = Some d ∧
    s' = setRecord s a c (checkedRecord d (clock env j)) ∧
    (clockReads w ≤ j < clockReads w')%nat ∧
    liveCalls w' = S (liveCalls w).
Proof.
  rewrite bodyOf_eval.
  destruct (live env (liveCalls w) (parentOf a c)) as [d|]; [|done].
  destruct (notifiesOf f (recordAt s a c) d).
  - rewrite sendSlackMessageWith_eval. cbv zeta.
    destruct url as [u|]; [|done]. case_decide; [|done].
    destruct (prettyMs env _); [|done].
    destruct (deliver env _ u); [|done]. simpl.
    intros [= <- <-]. exists d, (S (clockReads w)). simpl. split_and!; try done; lia.
  - intros [= <- <-]. exists d, (clockReads w). simpl. split_and!; try done; lia.
Qed.

Lemma bodyOf_returns f env config url a c s w s' w' :
  bodyOf f env config url a c s w = (Done s', w') →
  ∃ d t, s' = setRecord s a c (checkedRecord d t).
Proof. intros (d & j & _ & -> & _)%bodyOf_returns_at. eauto. Qed.







(** The loops leave the bucket alone and write nothing. *)
Lemma loops_trace f env config items s w :
  ∃ evs,
    trace (forOf (forSlack (bodyOf f) env config) items s w).2 = trace w ++ evs ∧
    storage (forOf (forSlack (bodyOf f) env config) items s w).2 = storage w ∧
    savesOf evs = [].
Proof.
  destruct (tracked_forOf_concat env plannedFor (forSlack (bodyOf f) env config)
              items s) with (w := w) as (evs & Ht & _ & _ & Hst & Hsv & _).
  { intros slack s0. apply tracked_forSlack, trackedBody_bodyOf. }
  by exists evs.
Qed.



(** A property of the state that every update of a configured container
    keeps is kept by the loops. *)
Lemma loops_keep f env config items (I : GtmState → Prop) :
  slackOutput config = Some items →
  (∀ g s d t, g ∈ allContainers config → I s →
     I (setRecord s (splitIds g).1 (splitIds g).2 (checkedRecord d t))) →
  ∀ s w s' w', I s →
    forOf (forSlack (bodyOf f) env config) items s w = (Done s', w') → I s'.
Proof.
  intros Hi Hkeep s w s' w' Hs Hrun.
  assert (∀ g s0 w0 s1 url, g ∈ allContainers config → I s0 →
            (forContainer (bodyOf f) env config url g s0 w0).1 = Done s1 → I s1)
    as Hcont.
  { intros g s0 w0 s1 url Hg Hs0. rewrite forContainer_eval.
    destruct (bodyOf f env config url _ _ s0 _) as [o w1] eqn:E. simpl.
    intros ->. apply bodyOf_returns in E as (d & t & ->). by apply Hkeep. }
  destruct (forOf_invariant I (fun _ => True) (forSlack (bodyOf f) env config) items)
    with (s := s) (w := w) as [_ Hdone]; [|done|done|].
  - intros slack s0 w0 Hin Hs0 _. split; [done|].
    destruct (forSlack_cases (bodyOf f) env config slack s0 w0)
      as [(e & w1 & -> & _)|(cs & w1 & Hcs & _ & ->)]; [done|].
    apply (forOf_invariant I (fun _ => True)); [|done|done].
    intros g s1 w2 Hg Hs1 _. split; [done|].
    intros s2. apply Hcont; [|done]. by eapply elem_of_allContainers.
  - apply Hdone. by rewrite Hrun.
Qed.

(** X14: a run that returns leaves the records of the containers that the
    configuration does not list as it loaded them: the state object is never
    pruned. *)
Theorem unconfigured_records_are_kept f env config w w' g b n s0 a c :
  gcs config = Some g → bucketName g = Some b → fileName g = Some n →
  downloadOk env = true → storage w !! (b, n) = Some (Doc s0) →
  (∀ x, x ∈ allContainers config → splitIds x ≠ (a, c)) →
  runOf f env config w = (Done tt, w') →
  ∃ s1, storage w' !! (b, n) = Some (Doc s1) ∧ recordAt s1 a c = recordAt s0 a c.
Proof.
  intros Hg Hb Hn Hdl Hdoc Hother.
  destruct (error (validateConfig config)) eqn:Hok.
  - rewrite runOf_eq, getGtmInfoWith_refused by done.
    intros [= <-]. exists s0. by split.
  - destruct (proj1 (validateConfig_complete config) Hok)
      as (g' & b' & n' & items & Hg' & _ & _ & Hi & _).
    rewrite (run_eval f env config w g b n items) by done.
    destruct (clientOk env); [|done].
    destruct (forOf _ _ _ _) as [[s'|e] w1] eqn:E; [|done].
    rewrite saveState_eval. destruct (saveOk env); [|done].
    intros [= <-]. simpl. exists s'. split; [apply lookup_insert_eq|].
    assert (loadedState env b n w = s0) as Hl.
    { unfold loadedState. by rewrite Hdl, Hdoc. }
    rewrite Hl in E.
    apply (loops_keep f env config items
             (fun s => recordAt s a c = recordAt s0 a c) Hi) in E; [done| |done].
    intros x s d t Hx Hs. rewrite recordAt_setRecord_ne; [done|].
    rewrite <- surjective_pairing. by apply Hother.
Qed.

Lemma unconfigured_records_are_kept_witness :
  let old := {| containerVersionId := Some "3"; lastChecked := Some 7%Z |} in
  let w := worldWith (Doc {[ "8" := {[ "9" := old ]} ]}) in
  let run := runOf Part000File (sampleEnv "6") sampleConfig w in
  run = (Done tt, run.2) ∧
  ∃ s1, storage run.2 !! ("bucket", "state.json") = Some (Doc s1) ∧
        recordAt s1 "8" "9" = recordAt {[ "8" := {[ "9" := old ]} ]} "8" "9".
Proof.
  cbv zeta.
  match goal with |- ?run = (Done tt, ?w1) ∧ _ =>
    assert (run = (Done tt, w1)) as Hrun by (vm_compute; reflexivity)
  end.
  split; [exact Hrun|].
  apply (unconfigured_records_are_kept Part000File (sampleEnv "6") sampleConfig
           (worldWith (Doc {[ "8" := {[ "9" :=
              {| containerVersionId := Some "3"; lastChecked := Some 7%Z |} ]} ]}))
           _ {| bucketName := Some "bucket"; fileName := Some "state.json" |}
           "bucket" "state.json" _ "8" "9");
    [reflexivity|reflexivity|reflexivity|reflexivity|reflexivity| |exact Hrun].
  intros x Hx. vm_compute in Hx.
  apply list_elem_of_singleton in Hx as ->. vm_compute. discriminate.
Defined.

(** ** No TypeError *)

Lemma forOf_never {A S} (I : S → Prop) (P : World → Prop) (bad : Exn)
    (body : A → S → Eff S) (items : list A) :
  (∀ x s w, x ∈ items → I s → P w →
     P (body x s w).2 ∧ (body x s w).1 ≠ Threw bad ∧
     ∀ s', (body x s w).1 = Done s' → I s') →
  ∀ s w, I s → P w →
    P (forOf body items s w).2 ∧ (forOf body items s w).1 ≠ Threw bad ∧
    ∀ s', (forOf body items s w).1 = Done s' → I s'.
Proof.
  induction items as [|x items IH]; intros Hb s w Hs Hw; simpl.
  - split_and!; [done|done|]. by intros s' [= <-].
  - unfold bind.
    destruct (Hb x s w) as (H1 & H2 & H3); [apply list_elem_of_here|done|done|].
    destruct (body x s w) as [[s1|e] w1]; simpl in *.
    + apply IH; [|by apply H3|done].
      intros y s0 w0 Hy. apply Hb. by apply list_elem_of_further.
    + split_and!; [done|done|done].
Qed.

Lemma sendSlackMessageWith_webhooks closing env lc d url w :
  webhooks (sendSlackMessageWith closing env lc d url w).2 = webhooks w.
Proof.
  rewrite sendSlackMessageWith_eval. cbv zeta.
  destruct url as [u|]; [|done].
  destruct (decide (u ∈ webhooks w)); [|done].
  by destruct (prettyMs env _).
Qed.

Lemma afterSend_webhooks env d s a c sent :
  webhooks (afterSend env d s a c sent).2 = webhooks sent.2.
Proof. by destruct sent as [[[]|e] w]. Qed.

Lemma afterSend_threw env d s a c sent e :
  (afterSend env d s a c sent).1 = Threw e → sent.1 = Threw e.
Proof. destruct sent as [[[]|e'] w]; simpl; [done|]. by intros [= ->]. Qed.

Lemma bodyOf_webhooks f env config url a c s w :
  webhooks (bodyOf f env config url a c s w).2 = webhooks w.
Proof.
  rewrite bodyOf_eval.
  destruct (live env (liveCalls w) (parentOf a c)) as [d|]; [|done].
  destruct (notifiesOf f (recordAt s a c) d); [|done].
  by rewrite afterSend_webhooks, sendSlackMessageWith_webhooks.
Qed.

(** Only a container that has a record is notified about. *)
Lemma notifiesOf_record f entry d :
  notifiesOf f entry d = true → ∃ r, entry = Some r.
Proof. destruct entry as [r|]; [by exists r|]. by destruct f. Qed.

(** With the webhook registered and the time of the last check on record,
    the notification has everything it reads. *)
Lemma bodyOf_registered f env config u a c s w :
  (∀ z, is_Some (prettyMs env (Some z))) →
  timed s → u ∈ webhooks w →
  (bodyOf f env config (Some u) a c s w).1 ≠ Threw TypeError.
Proof.
  intros Hpretty Ht Hu. rewrite bodyOf_eval.
  destruct (live env (liveCalls w) (parentOf a c)) as [d|]; [|done].
  destruct (notifiesOf f (recordAt s a c) d) eqn:Hn; [|done].
  apply notifiesOf_record in Hn as [r Hr].
  destruct (Ht a c r Hr) as [t0 Ht0].
  intros H%afterSend_threw. revert H.
  rewrite sendSlackMessageWith_eval. cbv zeta.
  rewrite decide_True by done.
  rewrite Hr. simpl. rewrite Ht0. simpl.
  destruct (Hpretty (clock env (clockReads w) - t0)%Z) as [pretty ->].
  simpl. by destruct (deliver env _ u).
Qed.

Lemma timed_empty : timed ∅.
Proof. intros a c r. unfold recordAt. by rewrite lookup_empty. Qed.

Lemma timed_setRecord s a c d t : timed s → timed (setRecord s a c (checkedRecord d t)).
Proof.
  intros Hs a' c' r.
  destruct (decide ((a, c) = (a', c'))) as [[= <- <-]|Hne].
  - rewrite recordAt_setRecord. intros [= <-]. by eexists.
  - rewrite recordAt_setRecord_ne by done. apply Hs.
Qed.

Lemma timed_loadedState env b n w : timedStore w → timed (loadedState env b n w).
Proof.
  intros Hst. unfold loadedState.
  destruct (downloadOk env); [|apply timed_empty].
  destruct (storage w !! (b, n)) as [[|s]|] eqn:E; try apply timed_empty.
  by apply (Hst (b, n)).
Qed.

(** X15: when pretty-ms renders every finite number and every record of the
    stored state carries [lastChecked], no run throws a [TypeError]:
    validation, the creation of missing state entries and the registration
    of each webhook before its containers are checked leave no property to be
    read off [undefined], and no elapsed time is NaN.  A run leaves the
    bucket in such a state again. *)
Theorem run_throws_no_TypeError f env config w :
  (∀ z, is_Some (prettyMs env (Some z))) →
  timedStore w →
  (runOf f env config w).1 ≠ Threw TypeError ∧
  timedStore (runOf f env config w).2.
Proof.
  intros Hpretty Hst.
  destruct (error (validateConfig config)) eqn:Hok.
  - by rewrite runOf_eq, getGtmInfoWith_refused.
  - destruct (proj1 (validateConfig_complete config) Hok)
      as (g & b & n & items & Hg & Hb & Hn & Hi & _ & Hall).
    rewrite (run_eval f env config w g b n items) by done.
    destruct (clientOk env); [|done].
    destruct (loops_trace f env config items (loadedState env b n w)
                (advance (preamble env b n w) 0 0 0 w)) as (evs & _ & Hsto & _).
    destruct (forOf_never timed (fun _ => True) TypeError
                (forSlack (bodyOf f) env config) items)
      with (s := loadedState env b n w)
           (w := advance (preamble env b n w) 0 0 0 w)
      as (_ & Hloops & Htimed); [|by apply timed_loadedState|done|].
    + intros slack s0 w0 Hin Hs0 _. split; [done|].
      destruct (Hall slack Hin) as (u & cs & Hu & _ & Hcs).
      rewrite (forSlack_eval _ _ _ _ u cs) by done.
      apply (forOf_never timed (fun w => u ∈ webhooks w)); [|done|set_solver].
      intros x s1 w1 _ Hs1 Hw1. rewrite forContainer_eval. split_and!.
      * by rewrite bodyOf_webhooks.
      * by apply bodyOf_registered.
      * intros s2 Hs2.
        destruct (bodyOf f env config (Some u) _ _ s1 _) as [o w2] eqn:E.
        simpl in Hs2. subst o.
        apply bodyOf_returns in E as (d & t & ->). by apply timed_setRecord.
    + destruct (forOf _ _ _ _) as [[s'|e] w1]; cbn [fst snd] in *.
      * rewrite saveState_eval. destruct (saveOk env); cbn [fst snd].
        -- split; [done|]. intros k s. cbn [storage]. rewrite Hsto.
           cbn [storage advance].
           destruct (decide (k = (b, n))) as [->|Hne].
           ++ rewrite lookup_insert_eq. intros [= <-]. by apply Htimed.
           ++ rewrite lookup_insert_ne by done. apply Hst.
        -- split; [done|]. intros k s. cbn [storage advance]. rewrite Hsto.
           apply Hst.
      * split; [intros [= ->]; by apply Hloops|].
        intros k s. rewrite Hsto. apply Hst.
Qed.

Lemma run_throws_no_TypeError_witness :
  let w := worldWith (Doc (sampleState
             {| containerVersionId := Some "5"; lastChecked := Some 7%Z |})) in
  (∀ z, is_Some (prettyMs (sampleEnv "6") (Some z))) ∧
  timedStore w ∧
  (runOf IndexJsFile (sampleEnv "6") sampleConfig w).1 ≠ Threw TypeError ∧
  timedStore (runOf IndexJsFile (sampleEnv "6") sampleConfig w).2.
Proof.
  cbv zeta.
  assert (∀ z, is_Some (prettyMs (sampleEnv "6") (Some z))) as Hpretty.
  { intros z. simpl. by eexists. }
  assert (timedStore (worldWith (Doc (sampleState
            {| containerVersionId := Some "5"; lastChecked := Some 7%Z |}))))
    as Hst.
  { intros k s Hk. unfold worldWith in Hk. cbn [storage] in Hk.
    apply lookup_singleton_Some in Hk as [_ [= <-]]. intros a c r.
    unfold recordAt, sampleState.
    destruct (decide (a = "1")) as [->|Ha];
      [|by rewrite lookup_singleton_ne].
    rewrite lookup_singleton_eq. simpl.
    intros [_ <-]%lookup_singleton_Some. by eexists. }
  split; [exact Hpretty|]. split; [exact Hst|].
  apply (run_throws_no_TypeError IndexJsFile (sampleEnv "6") sampleConfig _
           Hpretty Hst).
Defined.

(** ** One notification per fetch at most *)

Lemma fetchFirst_quiet evs : sendsOf evs = [] → fetchFirst evs.
Proof.
  intros H pre [k ->]. rewrite sendsOf_app in H.
  apply app_eq_nil in H as [-> _]. simpl. lia.
Qed.

Lemma fetchFirst_app e1 e2 : fetchFirst e1 → fetchFirst e2 → fetchFirst (e1 ++ e2).
Proof.
  intros H1 H2 pre Hpre.
  destruct (prefix_weak_total pre e1 (e1 ++ e2)) as [Hp|[k ->]];
    [done|by apply prefix_app_r|by apply H1|].
  apply prefix_app_inv in Hpre.
  rewrite sendsOf_app, livesOf_app, !length_app.
  specialize (H1 e1 (reflexivity _)). specialize (H2 k Hpre). lia.
Qed.

Lemma fetchFirst_pass parent rest :
  (length (sendsOf rest) ≤ 1)%nat → fetchFirst (Live parent :: rest).
Proof.
  intros Hrest [|x pre] Hpre; simpl; [lia|].
  pose proof (prefix_cons_inv_1 _ _ _ _ Hpre) as ->.
  apply prefix_cons_inv_2 in Hpre as [k ->]. simpl.
  rewrite sendsOf_app, length_app in Hrest. lia.
Qed.

Lemma paced_quiet {A} (m : Eff A) :
  (∀ w, ∃ evs, trace (m w).2 = trace w ++ evs ∧ sendsOf evs = []) → paced m.
Proof.
  intros H w. destruct (H w) as (evs & Ht & Hs).
  exists evs. split; [done|by apply fetchFirst_quiet].
Qed.

Lemma paced_ret {A} (a : A) : paced (ret a).
Proof. apply paced_quiet. intros w. exists []. by rewrite app_nil_r. Qed.

Lemma paced_throw {A} e : paced (@throw A e).
Proof. apply paced_quiet. intros w. exists []. by rewrite app_nil_r. Qed.

Lemma paced_bind {A B} (m : Eff A) (k : A → Eff B) :
  paced m → (∀ a, paced (k a)) → paced (bind m k).
Proof.
  intros Hm Hk w. unfold bind.
  destruct (Hm w) as (e1 & Ht1 & H1).
  destruct (m w) as [[a|e] w1]; simpl in *.
  - destruct (Hk a w1) as (e2 & Ht2 & H2).
    exists (e1 ++ e2). split; [by rewrite Ht2, Ht1, app_assoc|by apply fetchFirst_app].
  - by exists e1.
Qed.

Lemma paced_forOf {A S} (body : A → S → Eff S) items s :
  (∀ x s, paced (body x s)) → paced (forOf body items s).
Proof.
  intros Hb. revert s. induction items as [|x items IH]; intros s; simpl.
  - apply paced_ret.
  - apply paced_bind; [apply Hb|]. intros s'. apply IH.
Qed.

Lemma paced_emit e : sendsOf [e] = [] → paced (emit e).
Proof. intros He. apply paced_quiet. intros w. by exists [e]. Qed.

Lemma paced_log config msg : paced (log config msg).
Proof.
  apply paced_quiet. intros w. rewrite log_eval.
  exists (logsOf config [msg]). split; [done|apply sendsOf_logsOf].
Qed.

Lemma paced_registerWebhook url : paced (registerWebhook url).
Proof.
  apply paced_quiet. intros w. exists [].
  destruct url; simpl; by rewrite app_nil_r.
Qed.

Lemma paced_required {A} (o : option A) : paced (required o).
Proof. destruct o; [apply paced_ret|apply paced_throw]. Qed.

Lemma paced_getClient env : paced (getClient env).
Proof.
  apply paced_bind; [by apply paced_emit|]. intros _.
  destruct (clientOk env); [apply paced_ret|apply paced_throw].
Qed.

Lemma paced_loadState env b n : paced (loadState env b n).
Proof.
  apply paced_quiet. intros w.
  unfold loadState, tryCatch, downloadState, bind, consoleLog, emit, ret. simpl.
  destruct (objectKey b n) as [[b' n']|]; [destruct (downloadOk env)|];
    [destruct (storage w !! (b', n')) as [[|state]|]| |]; simpl;
    rewrite <- ?app_assoc; eexists; (split; [reflexivity|reflexivity]).
Qed.

Lemma paced_saveState env b n s : paced (saveState env b n s).
Proof.
  apply paced_quiet. intros w.
  unfold saveState, bind, consoleLog, emit. simpl.
  destruct (objectKey b n) as [[b' n']|]; [destruct (saveOk env)|]; simpl;
    rewrite <- ?app_assoc; eexists; (split; [reflexivity|reflexivity]).
Qed.

Lemma sendSlackMessageWith_trace closing env lc d url w :
  ∃ evs, trace (sendSlackMessageWith closing env lc d url w).2 = trace w ++ evs ∧
         (length (sendsOf evs) ≤ 1)%nat.
Proof.
  rewrite sendSlackMessageWith_eval. cbv zeta.
  destruct url as [u|]; [destruct (decide (u ∈ webhooks w));
    [destruct (prettyMs env _)|]|]; simpl; eexists; split; try reflexivity; simpl; lia.
Qed.

Lemma afterSend_trace env d s a c sent :
  trace (afterSend env d s a c sent).2 = trace sent.2.
Proof. destruct sent as [[[]|e] w]; simpl; [apply app_nil_r|done]. Qed.

Lemma paced_bodyOf f env config url a c s : paced (bodyOf f env config url a c s).
Proof.
  intros w. rewrite bodyOf_eval.
  destruct (live env (liveCalls w) (parentOf a c)) as [d|];
    [destruct (notifiesOf f (recordAt s a c) d)|].
  - rewrite afterSend_trace.
    destruct (sendSlackMessageWith_trace (closingOf f) env
                (recordAt s a c ≫= lastChecked) d url
                (advance (Live (parentOf a c) :: logsOf config [changedMsg a c]) 0 1 0 w))
      as (evs & -> & Hs).
    exists (Live (parentOf a c) :: logsOf config [changedMsg a c] ++ evs). split.
    + simpl. by rewrite <- app_assoc.
    + apply fetchFirst_pass. by rewrite sendsOf_app, sendsOf_logsOf.
  - eexists. split; [reflexivity|].
    apply fetchFirst_pass. rewrite sendsOf_logsOf. simpl. lia.
  - eexists. split; [reflexivity|]. apply fetchFirst_pass. simpl. lia.
Qed.

Lemma paced_run f env config : paced (runOf f env config).
Proof.
  rewrite runOf_eq. unfold getGtmInfoWith.
  apply paced_bind; [by apply paced_emit|]. intros _.
  destruct (error (validateConfig config)); [by apply paced_emit|].
  unfold checkAll.
  apply paced_bind; [by apply paced_emit|]. intros _.
  apply paced_bind; [apply paced_required|]. intros g.
  apply paced_bind; [apply paced_loadState|]. intros s.
  unfold checkContainers.
  apply paced_bind; [apply paced_getClient|]. intros _.
  apply paced_bind; [apply paced_required|]. intros items.
  apply paced_bind; [|intros s'; apply paced_saveState].
  apply paced_forOf. intros slack s0. unfold forSlack.
  apply paced_bind; [apply paced_log|]. intros _.
  apply paced_bind; [apply paced_registerWebhook|]. intros _.
  apply paced_bind; [apply paced_required|]. intros cs.
  apply paced_forOf. intros x s1.
  unfold forContainer. destruct (splitIds x) as [a c].
  apply paced_bind; [apply paced_log|]. intros _. apply paced_bodyOf.
Qed.

Lemma planned_allContainers config :
  planned config = parentOfContainer <$> allContainers config.
Proof.
  unfold planned, allContainers, plannedFor.
  induction (default [] (slackOutput config)) as [|slack items IH]; [done|].
  rewrite !fmap_cons. simpl. rewrite fmap_app. f_equal. apply IH.
Qed.

(** X16: in every run each notification follows a fetch of its own: at no
    point have more notifications been sent than versions fetched, and a run
    sends no more notifications than the configuration lists containers. *)
Theorem notifications_follow_fetches f env config w :
  ∃ evs,
    trace (runOf f env config w).2 = trace w ++ evs ∧
    (∀ pre, pre `prefix_of` evs → (length (sendsOf pre) ≤ length (livesOf pre))%nat) ∧
    (length (sendsOf evs) ≤ length (allContainers config))%nat.
Proof.
  destruct (paced_run f env config w) as (evs & Ht & Hp).
  exists evs. split_and!; [done|done|].
  destruct (inOrderUntilFailure_with (bodyOf f) env config w
              (trackedBody_bodyOf env f)) as (evs' & Ht' & Hpre & _).
  rewrite <- runOf_eq, Ht in Ht'. apply app_inv_head in Ht' as <-.
  apply prefix_length in Hpre.
  rewrite planned_allContainers, length_fmap in Hpre.
  specialize (Hp evs (reflexivity _)). lia.
Qed.

(** ** [verboseLogging] *)

Lemma effectsOf_app t1 t2 : effectsOf (t1 ++ t2) = effectsOf t1 ++ effectsOf t2.
Proof. apply List.filter_app. Qed.

Lemma effectsOf_logsOf config msgs : effectsOf (logsOf config msgs) = [].
Proof.
  unfold logsOf. destruct (verboseLogging config); [|done].
  induction msgs as [|m msgs IH]; [done|]. simpl. apply IH.
Qed.

Lemma sameEffects_refl w : sameEffects w w.
Proof. by repeat split. Qed.

Lemma sameEffects_advance eA eB c l s wA wB :
  sameEffects wA wB → effectsOf eA = effectsOf eB →
  sameEffects (advance eA c l s wA) (advance eB c l s wB).
Proof.
  intros (Hc & Hl & Hs & Hw & Hst & Ht) He. unfold sameEffects. simpl.
  rewrite !effectsOf_app, Hc, Hl, Hs, Hw, Hst, Ht, He. done.
Qed.

Lemma sameEffects_withWebhook u wA wB :
  sameEffects wA wB → sameEffects (withWebhook u wA) (withWebhook u wB).
Proof.
  intros (Hc & Hl & Hs & Hw & Hst & Ht). unfold sameEffects. simpl.
  by rewrite Hc, Hl, Hs, Hw, Hst, Ht.
Qed.

Lemma alike_bind {A B} (mA mB : Eff A) (kA kB : A → Eff B) wA wB :
  alike (mA wA) (mB wB) →
  (∀ a wA' wB', sameEffects wA' wB' → alike (kA a wA') (kB a wB')) →
  alike (bind mA kA wA) (bind mB kB wB).
Proof.
  intros [Ho Hw] Hk. unfold bind.
  destruct (mA wA) as [[a|e] wA'], (mB wB) as [[a'|e'] wB']; simpl in *; try done.
  - injection Ho as <-. by apply Hk.
  - injection Ho as <-. by split.
Qed.

Lemma alike_forOf {A S} (bodyA bodyB : A → S → Eff S) items :
  (∀ x s wA wB, sameEffects wA wB → alike (bodyA x s wA) (bodyB x s wB)) →
  ∀ s wA wB, sameEffects wA wB →
    alike (forOf bodyA items s wA) (forOf bodyB items s wB).
Proof.
  intros Hb. induction items as [|x items IH]; intros s wA wB Hw; simpl.
  - by split.
  - apply alike_bind; [by apply Hb|]. intros s' wA' wB'. apply IH.
Qed.

Lemma alike_sendSlackMessageWith closing env lc d url wA wB :
  sameEffects wA wB →
  alike (sendSlackMessageWith closing env lc d url wA)
        (sendSlackMessageWith closing env lc d url wB).
Proof.
  intros Hw. pose proof Hw as (Hc & Hl & Hs & Hh & Hst & Ht).
  rewrite !sendSlackMessageWith_eval. cbv zeta. rewrite Hc, Hs, Hh.
  destruct url as [u|]; [destruct (decide (u ∈ webhooks wB));
    [destruct (prettyMs env _)|]|];
    (split; [done|]); simpl; by apply sameEffects_advance.
Qed.

Lemma alike_afterSend env d s a c sentA sentB :
  alike sentA sentB →
  alike (afterSend env d s a c sentA) (afterSend env d s a c sentB).
Proof.
  intros [Ho Hw]. destruct sentA as [[[]|e] wA], sentB as [[[]|e'] wB];
    simpl in *; try done.
  - pose proof Hw as (Hc & _). rewrite Hc.
    split; [done|]. by apply sameEffects_advance.
  - injection Ho as <-. by split.
Qed.

(** The loop body reads the configuration for [verboseLogging] only. *)
Lemma alike_bodyOf f env configA configB url a c s wA wB :
  sameEffects wA wB →
  alike (bodyOf f env configA url a c s wA) (bodyOf f env configB url a c s wB).
Proof.
  intros Hw. pose proof Hw as (Hc & Hl & _).
  rewrite !bodyOf_eval, Hl, Hc.
  destruct (live env (liveCalls wB) (parentOf a c)) as [d|];
    [destruct (notifiesOf f (recordAt s a c) d)|].
  - apply alike_afterSend, alike_sendSlackMessageWith, sameEffects_advance; [done|].
    simpl. f_equal. by rewrite !effectsOf_logsOf.
  - split; [done|]. apply sameEffects_advance; [done|].
    simpl. f_equal. by rewrite !effectsOf_logsOf.
  - split; [done|]. by apply sameEffects_advance.
Qed.

Lemma alike_log configA configB msg wA wB :
  sameEffects wA wB → alike (log configA msg wA) (log configB msg wB).
Proof.
  intros Hw. rewrite !log_eval. split; [done|].
  apply sameEffects_advance; [done|]. by rewrite !effectsOf_logsOf.
Qed.

Lemma alike_emit e wA wB : sameEffects wA wB → alike (emit e wA) (emit e wB).
Proof. intros Hw. split; [done|]. by apply sameEffects_advance. Qed.

Lemma alike_pure {A} (m : Eff A) wA wB :
  (∀ w, (m w).2 = w) → (∀ w w', (m w).1 = (m w').1) →
  sameEffects wA wB → alike (m wA) (m wB).
Proof. intros H2 H1 Hw. split; [apply H1|]. by rewrite !H2. Qed.

Lemma alike_required {A} (o : option A) wA wB :
  sameEffects wA wB → alike (required o wA) (required o wB).
Proof. apply alike_pure; by destruct o. Qed.

Lemma alike_registerWebhook url wA wB :
  sameEffects wA wB → alike (registerWebhook url wA) (registerWebhook url wB).
Proof.
  intros Hw. destruct url as [u|]; simpl; (split; [done|]); simpl; [|done].
  by apply (sameEffects_withWebhook u).
Qed.

Lemma alike_getClient env wA wB :
  sameEffects wA wB → alike (getClient env wA) (getClient env wB).
Proof.
  intros Hw. apply alike_bind; [by apply alike_emit|]. intros _ wA' wB' Hw'.
  by destruct (clientOk env).
Qed.

Lemma alike_loadState env b n wA wB :
  sameEffects wA wB → alike (loadState env b n wA) (loadState env b n wB).
Proof.
  intros Hw. pose proof Hw as (_ & _ & _ & _ & Hst & _).
  destruct b as [b|], n as [n|].
  - rewrite !loadState_eval. unfold loadedState, loads. simpl. rewrite Hst.
    split; [done|]. simpl. by apply sameEffects_advance.
  - unfold loadState, tryCatch, downloadState, bind, consoleLog, emit, ret. simpl.
    split; [done|]. simpl. rewrite !advance_advance. by apply sameEffects_advance.
  - unfold loadState, tryCatch, downloadState, bind, consoleLog, emit, ret. simpl.
    split; [done|]. simpl. rewrite !advance_advance. by apply sameEffects_advance.
  - unfold loadState, tryCatch, downloadState, bind, consoleLog, emit, ret. simpl.
    split; [done|]. simpl. rewrite !advance_advance. by apply sameEffects_advance.
Qed.

Lemma alike_saveState env b n s wA wB :
  sameEffects wA wB → alike (saveState env b n s wA) (saveState env b n s wB).
Proof.
  intros Hw. pose proof Hw as (Hc & Hl & Hs & Hh & Hst & Ht).
  unfold saveState, bind, consoleLog, emit. simpl.
  destruct (objectKey b n) as [[b' n']|]; [destruct (saveOk env)|];
    (split; [done|]); unfold sameEffects; simpl;
    rewrite ?effectsOf_app, Hc, Hl, Hs, Hh, Hst, Ht; done.
Qed.

(** X17: [verboseLogging] changes what a run prints with [console.log] and
    nothing else: with the flag set either way the run ends the same way,
    leaves the same bucket and registry, and makes the same calls, fetches,
    notifications and writes in the same order. *)
Theorem verboseLogging_only_prints f env config v w :
  alike (runOf f env config w) (runOf f env (withVerbose v config) w).
Proof.
  assert (gcs config = gcs (withVerbose v config)) as Hg by reflexivity.
  assert (slackOutput config = slackOutput (withVerbose v config)) as Hi
    by reflexivity.
  generalize dependent (withVerbose v config). intros configB Hg Hi.
  assert (validateConfig config = validateConfig configB) as Hv.
  { unfold validateConfig. by rewrite Hg, Hi. }
  rewrite runOf_eq. unfold getGtmInfoWith. rewrite Hv.
  apply alike_bind; [apply alike_emit, sameEffects_refl|]. intros _ w1 w1' Hw1.
  destruct (error (validateConfig configB)); [by apply alike_emit|].
  unfold checkAll. rewrite Hg.
  apply alike_bind; [by apply alike_emit|]. intros _ w2 w2' Hw2.
  apply alike_bind; [by apply alike_required|]. intros g w3 w3' Hw3.
  apply alike_bind; [by apply alike_loadState|]. intros s w4 w4' Hw4.
  unfold checkContainers. rewrite Hi.
  apply alike_bind; [by apply alike_getClient|]. intros _ w5 w5' Hw5.
  apply alike_bind; [by apply alike_required|]. intros items w6 w6' Hw6.
  apply alike_bind; [|intros s' w7 w7' Hw7; by apply alike_saveState].
  apply alike_forOf; [|done]. intros slack s0 wA wB Hw. unfold forSlack.
  apply alike_bind; [by apply alike_log|]. intros _ wA1 wB1 Hw'.
  apply alike_bind; [by apply alike_registerWebhook|]. intros _ wA2 wB2 Hw''.
  apply alike_bind; [by apply alike_required|]. intros cs wA3 wB3 Hw3'.
  apply alike_forOf; [|done]. intros x s1 wA4 wB4 Hw4'.
  unfold forContainer. destruct (splitIds x) as [a c].
  apply alike_bind; [by apply alike_log|]. intros _ wA5 wB5 Hw5'.
  by apply alike_bodyOf.
Qed.

(** X18: when the final write is refused, a run on a configuration that
    passes validation throws and the bucket keeps the state it had: what the
    run fetched and notified is not recorded. *)
Theorem failed_save_is_not_recorded f env config w :
  error (validateConfig config) = false →
  saveOk env = false →
  isThrew (runOf f env config w).1 ∧
  storage (runOf f env config w).2 = storage w.
Proof.
  intros Hok Hsave.
  destruct (proj1 (validateConfig_complete config) Hok)
    as (g & b & n & items & Hg & Hb & Hn & Hi & _).
  rewrite (run_eval f env config w g b n items) by done.
  destruct (clientOk env); [|split; [by eexists|done]].
  destruct (loops_trace f env config items (loadedState env b n w)
              (advance (preamble env b n w) 0 0 0 w)) as (evs & _ & Hst & _).
  destruct (forOf _ _ _ _) as [[s'|e] w1].
  - rewrite saveState_eval, Hsave. split; [by eexists|done].
  - split; [by eexists|done].
Qed.

Lemma failed_save_is_not_recorded_witness :
  let env :=
    {| clock := clock (sampleEnv "6"); live := live (sampleEnv "6");
       deliver := deliver (sampleEnv "6"); prettyMs := prettyMs (sampleEnv "6");
       downloadOk := true; clientOk := true; saveOk := false |} in
  isThrew (runOf IndexJsFile env sampleConfig emptyWorld).1 ∧
  storage (runOf IndexJsFile env sampleConfig emptyWorld).2 = storage emptyWorld.
Proof.
  cbv zeta.
  apply (failed_save_is_not_recorded IndexJsFile _ sampleConfig emptyWorld);
    [vm_compute; reflexivity|reflexivity].
Defined.

(** * A run whose state cannot be loaded *)






